(** * claude-docs: a shallow embedding of [scripts/fetch_claude_docs.py]

    The development follows the script top to bottom: the Python string
    primitives it relies on, the filename normaliser
    ([url_to_safe_filename]), the content validator
    ([validate_markdown_content]), the two retrying fetch loops
    ([fetch_markdown_content], [fetch_changelog]), the manifest store and
    the orchestrating [main].

    Modelling conventions.
    - A Python [str] is a [string]; one [ascii] stands for one code point,
      so the model covers text whose code points are below 256.
    - A [dict] keyed by filename is a [gmap string _], a [set] of filenames
      a [gset string]; the documentation directory is a flat map from
      filename to the bytes of the file.
    - The network is an input: every HTTP GET of a fetch is answered by a
      function from the attempt number to what [session.get] does there.
    - [datetime.now().isoformat()] is an input as well: each identity
      comes with the timestamp the clock shows while it is processed.
    - Exceptions are values of [exn]; a Python function that may raise
      returns a sum.
    - Calls into the file system succeed; logging, the politeness delay
      between requests and the random jitter of the back-off are left
      out, the waits themselves are recorded.
    - [time.sleep] is CPython's: it refuses a length outside its 64-bit
      count of nanoseconds and a negative one. Whether the operating
      system then waits a rate-limit delay out or refuses it is an input,
      given with the response that asks for the delay. *)

From Stdlib Require Import ZArith Ascii String List Lia Bool.
From stdpp Require Import base gmap strings list fin_maps.

(** ** Python string primitives *)

Module PyStr.

(** [len(s)] *)
Definition len (s : string) : nat := String.length s.

(** [s.startswith(p)] *)
Fixpoint startswith (s p : string) {struct p} : bool :=
  match p, s with
  | EmptyString, _ => true
  | String _ _, EmptyString => false
  | String b p', String a s' => Ascii.eqb a b && startswith s' p'
  end.

(** [sub in s] *)
Fixpoint contains (sub s : string) : bool :=
  startswith s sub ||
  match s with
  | EmptyString => false
  | String _ s' => contains sub s'
  end.

(** [c in s] for a single character, as a proposition *)
Fixpoint has_char (c : ascii) (s : string) : Prop :=
  match s with
  | EmptyString => False
  | String a s' => a = c \/ has_char c s'
  end.

(** [s.endswith(suf)]: some tail of [s] is [suf]. *)
Fixpoint endswith (s suf : string) : bool :=
  String.eqb s suf ||
  match s with
  | EmptyString => false
  | String _ s' => endswith s' suf
  end.

(** [s[:n]] for [n >= 0] *)
Fixpoint take (n : nat) (s : string) : string :=
  match n, s with
  | S n', String a s' => String a (take n' s')
  | _, _ => EmptyString
  end.

(** [s[:-n]] for [n > 0]: everything but the last [n] characters. *)
Definition drop_last (n : nat) (s : string) : string :=
  take (len s - n) s.

(** [s.lstrip(c)] and [s.rstrip(c)] for a one-character set. *)
Fixpoint lstrip_char (c : ascii) (s : string) : string :=
  match s with
  | EmptyString => EmptyString
  | String a s' => if Ascii.eqb a c then lstrip_char c s' else s
  end.

Fixpoint rstrip_char (c : ascii) (s : string) : string :=
  match s with
  | EmptyString => EmptyString
  | String a s' =>
      match rstrip_char c s' with
      | EmptyString => if Ascii.eqb a c then EmptyString else String a EmptyString
      | r => String a r
      end
  end.

(** [s.strip(c)] *)
Definition strip_char (c : ascii) (s : string) : string :=
  rstrip_char c (lstrip_char c s).

(** [str.isspace] on one code point below 256: the ASCII white space
    and separators, NEL (133) and the no-break space (160). *)
Definition is_space (a : ascii) : bool :=
  let n := nat_of_ascii a in
  ((9 <=? n) && (n <=? 13)) || ((28 <=? n) && (n <=? 32))
  || (n =? 133) || (n =? 160).

Fixpoint lstrip (s : string) : string :=
  match s with
  | EmptyString => EmptyString
  | String a s' => if is_space a then lstrip s' else s
  end.

Fixpoint rstrip (s : string) : string :=
  match s with
  | EmptyString => EmptyString
  | String a s' =>
      match rstrip s' with
      | EmptyString => if is_space a then EmptyString else String a EmptyString
      | r => String a r
      end
  end.

(** [s.strip()] *)
Definition strip (s : string) : string := rstrip (lstrip s).

(** [s.replace(old, new)] for a one-character [old]. *)
Fixpoint replace_char (old : ascii) (new : string) (s : string) : string :=
  match s with
  | EmptyString => EmptyString
  | String a s' =>
      if Ascii.eqb a old then new +:+ replace_char old new s'
      else String a (replace_char old new s')
  end.

(** [s.split(sep)] for a one-character separator: never empty. *)
Fixpoint split_char (sep : ascii) (s : string) : list string :=
  match s with
  | EmptyString => [EmptyString]
  | String a s' =>
      if Ascii.eqb a sep then EmptyString :: split_char sep s'
      else match split_char sep s' with
           | [] => [String a EmptyString]
           | w :: ws => String a w :: ws
           end
  end.

(** [str.lower] on one code point below 256: the ASCII capitals and
    the Latin-1 capitals 192..222 except the multiplication sign. *)
Definition lower_char (a : ascii) : ascii :=
  let n := nat_of_ascii a in
  if ((65 <=? n) && (n <=? 90))
     || ((192 <=? n) && (n <=? 222) && negb (n =? 215))
  then ascii_of_nat (n + 32) else a.

Fixpoint lower (s : string) : string :=
  match s with
  | EmptyString => EmptyString
  | String a s' => String (lower_char a) (lower s')
  end.

(** Truthiness of an optional string: [None] and [""] are falsy. *)
Definition truthy (o : option string) : bool :=
  match o with
  | Some (String _ _) => true
  | _ => false
  end.

End PyStr.

(** ** Filename normaliser *)

(** The category as it is interpolated into the f-string; only evaluated
    when the category is truthy. *)
Definition category_text (category : option string) : string :=
  match category with
  | Some c => c
  | None => "None"
  end.

Definition url_to_safe_filename
    (url_path : string) (source : string) (category : option string) : string :=
  (* Remove .md extension if present *)
  let path := if PyStr.endswith url_path ".md"
              then PyStr.drop_last 3 url_path else url_path in
  (* Clean leading/trailing slashes *)
  let path := PyStr.strip_char "/" path in
  (* Convert path separators to double underscores *)
  let safe_name := PyStr.replace_char "/" "__" path in
  (* Build prefix based on source *)
  let prefix := if String.eqb source "code" && PyStr.truthy category
                then "code__" +:+ category_text category
                else source in
  prefix +:+ "__" +:+ safe_name +:+ ".md".

(** ** Content validator *)

(** Why [validate_markdown_content] raises [ValueError]. *)
Inductive rejection :=
  | ReceivedHtml                            (* "Received HTML instead of markdown" *)
  | ContentTooShort (bytes : nat)           (* "Content too short (... bytes)" *)
  | NotMarkdown (indicator_count : nat).    (* "Content doesn't appear to be markdown ..." *)

(** The validator returns [None] or raises; on success the model records
    whether the documentation-pattern warning was logged. *)
Inductive validation :=
  | Accepted (warned : bool)
  | Rejected (why : rejection).

Definition newline : ascii := ascii_of_nat 10.

Definition markdown_indicators : list string :=
  [ "# "; "## "; "### "; "```"; "- "; "* "; "1. "; "["; "**"; "_"; "> " ].

Definition doc_patterns : list string :=
  [ "installation"; "usage"; "example"; "api"; "configuration"; "claude"; "code" ].

(** The inner loop: does some indicator make this line count? *)
Definition line_has_indicator (line : string) : bool :=
  existsb (fun indicator =>
             PyStr.startswith (PyStr.strip line) indicator
             || PyStr.contains indicator line)
          markdown_indicators.

(** The outer loop over [lines[:50]]: a line adds one to the count at its
    first matching indicator and the inner loop breaks. *)
Definition count_indicators (lines : list string) : nat :=
  fold_left (fun indicator_count line =>
               if line_has_indicator line then S indicator_count
               else indicator_count)
            (firstn 50 lines) 0.

Definition validate_markdown_content (content : string) : validation :=
  (* Check for HTML content *)
  if String.eqb content ""
     || PyStr.startswith content "<!DOCTYPE"
     || PyStr.contains "<html" (PyStr.take 100 content)
  then Rejected ReceivedHtml
  (* Check minimum length *)
  else if PyStr.len (PyStr.strip content) <? 50
  then Rejected (ContentTooShort (PyStr.len content))
  else
    let lines := PyStr.split_char newline content in
    let indicator_count := count_indicators lines in
    (* Require at least some markdown formatting *)
    if indicator_count <? 3
    then Rejected (NotMarkdown indicator_count)
    else
      (* Check for common documentation patterns *)
      let content_lower := PyStr.lower content in
      let pattern_found :=
        existsb (fun pattern => PyStr.contains pattern content_lower) doc_patterns in
      Accepted (negb pattern_found).

(** ** Transport and the retrying fetch loops *)

Definition MAX_RETRIES : nat := 3.
Definition RETRY_DELAY : Z := 2.
Definition MAX_RETRY_DELAY : Z := 30.
Definition MANIFEST_FILE : string := "docs_manifest.json".

(** The [Retry-After] header of a response: absent, a text that [int()]
    parses to [seconds], or a text that [int()] refuses (an HTTP date).
    A header that asks for a delay comes with what the operating system
    does when [time.sleep] hands it that delay: it waits
    ([RetryAfterInt]) or it refuses ([RetryAfterRefused]), as Linux does
    with a deadline beyond the range of its clock. *)
Inductive retry_after :=
  | RetryAfterAbsent
  | RetryAfterInt (seconds : Z)
  | RetryAfterRefused (seconds : Z)
  | RetryAfterMalformed.

Record response := {
  status_code : Z;
  retry_after_header : retry_after;
  text : string
}.

(** What one call of [session.get] does: it raises a
    [requests.exceptions.RequestException] or it returns a response. *)
Inductive get_result :=
  | GetRaises
  | GetReturns (r : response).

(** The exceptions that leave the fetch functions or arise in [main]. *)
Inductive exn :=
  | ValidationError (why : rejection)  (* ValueError of the validator, re-raised *)
  | RetryAfterError                    (* ValueError of int() or time.sleep() *)
  | SleepOverflow                      (* OverflowError of time.sleep() *)
  | SleepRefused                       (* OSError of time.sleep() *)
  | ChangelogTooShort (bytes : nat)    (* ValueError of the changelog check *)
  | FetchFailed                        (* Exception("Failed to fetch ... after 3 attempts") *)
  | UnpackNone.                        (* TypeError: cannot unpack non-iterable NoneType *)

(** How a call of a fetch function ends. *)
Inductive outcome (A : Type) :=
  | Return (a : A)
  | ReturnNone
  | Raise (e : exn).
Arguments Return {A} a.
Arguments ReturnNone {A}.
Arguments Raise {A} e.

(** The calls of [time.sleep] a fetch makes, in order. The back-off delay
    is recorded before the random jitter factor is applied. *)
Inductive wait :=
  | RateLimitWait (seconds : Z)
  | BackoffWait (delay : Z).

(** [int(response.headers.get('Retry-After', 60))] *)
Definition int_retry_after (h : retry_after) : option Z :=
  match h with
  | RetryAfterAbsent => Some 60%Z
  | RetryAfterInt n => Some n
  | RetryAfterRefused n => Some n
  | RetryAfterMalformed => None
  end.

(** The longest sleep CPython converts to its 64-bit count of
    nanoseconds: [2 ** 63 // 10 ** 9] seconds. *)
Definition SLEEP_MAX : Z := 9223372036.

(** [time.sleep(wait_time)] in the rate-limit branch, for the integer
    [wait_time] read from the header [h]: the exception it raises, if
    any. The conversion to nanoseconds comes first ([OverflowError]),
    then the sign ([ValueError]), then the system call ([OSError]). *)
Definition time_sleep (h : retry_after) (wait_time : Z) : option exn :=
  if ((wait_time <? - SLEEP_MAX) || (SLEEP_MAX <? wait_time))%Z then Some SleepOverflow
  else if (wait_time <? 0)%Z then Some RetryAfterError
  else match h with
       | RetryAfterRefused _ => Some SleepRefused
       | _ => None
       end.

(** [response.raise_for_status()] raises for 4xx and 5xx. *)
Definition raises_for_status (r : response) : bool :=
  ((400 <=? status_code r) && (status_code r <? 600))%Z.

(** [min(RETRY_DELAY * (2 ** attempt), MAX_RETRY_DELAY)] *)
Definition backoff_delay (attempt : nat) : Z :=
  Z.min (RETRY_DELAY * 2 ^ Z.of_nat attempt) MAX_RETRY_DELAY.

(** The body of [for attempt in range(MAX_RETRIES)] in
    [fetch_markdown_content], by recursion on the attempts still to run. *)
Fixpoint fetch_markdown_attempts
    (get : nat -> get_result) (filename : string) (attempts : list nat)
    : outcome (string * string) * list wait :=
  match attempts with
  | [] => (ReturnNone, [])
  | attempt :: rest =>
      let continue := fetch_markdown_attempts get filename rest in
      let on_request_exception :=
        if attempt <? MAX_RETRIES - 1
        then (fst continue, BackoffWait (backoff_delay attempt) :: snd continue)
        else (Raise FetchFailed, []) in
      match get attempt with
      | GetRaises => on_request_exception
      | GetReturns response =>
          if (status_code response =? 429)%Z then
            match int_retry_after (retry_after_header response) with
            | None => (Raise RetryAfterError, [])
            | Some wait_time =>
                match time_sleep (retry_after_header response) wait_time with
                | Some e => (Raise e, [])
                | None => (fst continue, RateLimitWait wait_time :: snd continue)
                end
            end
          else if raises_for_status response then on_request_exception
          else
            let content := text response in
            match validate_markdown_content content with
            | Rejected why => (Raise (ValidationError why), [])
            | Accepted _ => (Return (filename, content), [])
            end
      end
  end.

Definition fetch_markdown_content
    (get : nat -> get_result) (source : string) (category : option string)
    (page_path : string) : outcome (string * string) * list wait :=
  let filename := url_to_safe_filename page_path source category in
  fetch_markdown_attempts get filename (seq 0 MAX_RETRIES).

Definition changelog_header : string :=
  "# Claude Code Changelog" +:+ String newline (String newline
  "> **Source**: https://github.com/anthropics/claude-code/blob/main/CHANGELOG.md") +:+ String newline
  "> " +:+ String newline
  "> This is the official Claude Code release changelog, automatically fetched from the Claude Code repository. For documentation, see other topics via `/docs`."
  +:+ String newline (String newline "---") +:+ String newline (String newline "").

(** The loop of [fetch_changelog]. *)
Fixpoint fetch_changelog_attempts
    (get : nat -> get_result) (filename : string) (attempts : list nat)
    : outcome (string * string) * list wait :=
  match attempts with
  | [] => (ReturnNone, [])
  | attempt :: rest =>
      let continue := fetch_changelog_attempts get filename rest in
      let on_request_exception :=
        if attempt <? MAX_RETRIES - 1
        then (fst continue, BackoffWait (backoff_delay attempt) :: snd continue)
        else (Raise FetchFailed, []) in
      match get attempt with
      | GetRaises => on_request_exception
      | GetReturns response =>
          if (status_code response =? 429)%Z then
            match int_retry_after (retry_after_header response) with
            | None => (Raise RetryAfterError, [])
            | Some wait_time =>
                match time_sleep (retry_after_header response) wait_time with
                | Some e => (Raise e, [])
                | None => (fst continue, RateLimitWait wait_time :: snd continue)
                end
            end
          else if raises_for_status response then on_request_exception
          else
            let content := changelog_header +:+ text response in
            (* Basic validation *)
            if PyStr.len (PyStr.strip content) <? 100
            then (Raise (ChangelogTooShort (PyStr.len content)), [])
            else (Return (filename, content), [])
      end
  end.

Definition fetch_changelog (get : nat -> get_result)
    : outcome (string * string) * list wait :=
  let filename := "changelog.md" in
  fetch_changelog_attempts get filename (seq 0 MAX_RETRIES).

(** ** Hashing: [hashlib.sha256(content.encode('utf-8')).hexdigest()] *)

(** [str.encode('utf-8')] for code points below 256: one byte below 128,
    two bytes from there on. Bytes are integers in [0, 256). *)
Definition utf8_char (a : ascii) : list Z :=
  let n := Z.of_nat (nat_of_ascii a) in
  if (n <? 128)%Z then [n]
  else [Z.lor 192 (Z.shiftr n 6); Z.lor 128 (Z.land n 63)].

Fixpoint utf8_encode (s : string) : list Z :=
  match s with
  | EmptyString => []
  | String a s' => utf8_char a ++ utf8_encode s'
  end.

(** SHA-256 as in FIPS 180-4, on 32-bit words held in [Z] with the
    wrap-around written out. *)
Module Sha256.
Local Open Scope Z_scope.

Definition wrap (x : Z) : Z := x mod 2 ^ 32.
Definition add (x y : Z) : Z := wrap (x + y).
Definition rotr (n x : Z) : Z :=
  Z.lor (Z.shiftr x n) (wrap (Z.shiftl x (32 - n))).
Definition shr (n x : Z) : Z := Z.shiftr x n.
Definition not32 (x : Z) : Z := Z.lxor x (2 ^ 32 - 1).

Definition Ch (x y z : Z) : Z := Z.lxor (Z.land x y) (Z.land (not32 x) z).
Definition Maj (x y z : Z) : Z :=
  Z.lxor (Z.lxor (Z.land x y) (Z.land x z)) (Z.land y z).
Definition Sigma0 (x : Z) : Z := Z.lxor (Z.lxor (rotr 2 x) (rotr 13 x)) (rotr 22 x).
Definition Sigma1 (x : Z) : Z := Z.lxor (Z.lxor (rotr 6 x) (rotr 11 x)) (rotr 25 x).
Definition sigma0 (x : Z) : Z := Z.lxor (Z.lxor (rotr 7 x) (rotr 18 x)) (shr 3 x).
Definition sigma1 (x : Z) : Z := Z.lxor (Z.lxor (rotr 17 x) (rotr 19 x)) (shr 10 x).

Definition primes : list Z :=
  [2; 3; 5; 7; 11; 13; 17; 19; 23; 29; 31; 37; 41; 43; 47; 53;
   59; 61; 67; 71; 73; 79; 83; 89; 97; 101; 103; 107; 109; 113; 127; 131;
   137; 139; 149; 151; 157; 163; 167; 173; 179; 181; 191; 193; 197; 199; 211; 223;
   227; 229; 233; 239; 241; 251; 257; 263; 269; 271; 277; 281; 283; 293; 307; 311].

(** Integer cube root, bit by bit from the top. *)
Definition cube_root (n : Z) : Z :=
  fold_left (fun r i => let r' := r + 2 ^ Z.of_nat i in
                        if r' * r' * r' <=? n then r' else r)
            (rev (seq 0 40)) 0.

(** Round constants: the first 32 bits of the fractional parts of the
    cube roots of the first 64 primes. *)
Definition K : list Z :=
  Eval vm_compute in map (fun p => wrap (cube_root (p * 2 ^ 96))) primes.

(** Initial hash value: the same for the square roots of the first 8. *)
Definition H0 : list Z :=
  Eval vm_compute in map (fun p => wrap (Z.sqrt (p * 2 ^ 64))) (firstn 8 primes).

(** Padding: a 1 bit, zeros up to 56 modulo 64, the bit length on 8 bytes. *)
Definition be_bytes (width : nat) (x : Z) : list Z :=
  map (fun i => Z.land (Z.shiftr x (8 * Z.of_nat i)) 255) (rev (seq 0 width)).

Definition pad (msg : list Z) : list Z :=
  let l := Z.of_nat (length msg) in
  let zeros := Z.to_nat ((55 - l) mod 64) in
  msg ++ [128] ++ repeat 0 zeros ++ be_bytes 8 (8 * l).

Fixpoint be_words (fuel : nat) (bytes : list Z) : list Z :=
  match fuel, bytes with
  | S fuel', b0 :: b1 :: b2 :: b3 :: rest =>
      (b0 * 2 ^ 24 + b1 * 2 ^ 16 + b2 * 2 ^ 8 + b3) :: be_words fuel' rest
  | _, _ => []
  end.

(** The message schedule: 16 words of the block, extended to 64. *)
Definition extend (w : list Z) (t : nat) : list Z :=
  let at_ i := nth (t - i) w 0 in
  w ++ [add (add (sigma1 (at_ 2%nat)) (at_ 7%nat))
            (add (sigma0 (at_ 15%nat)) (at_ 16%nat))].

Definition schedule (block : list Z) : list Z :=
  fold_left extend (seq 16 48) block.

Record state := State { sa : Z; sb : Z; sc : Z; sd : Z; se : Z; sf : Z; sg : Z; sh : Z }.

Definition round (s : state) (kw : Z * Z) : state :=
  let t1 := add (add (add (sh s) (Sigma1 (se s))) (add (Ch (se s) (sf s) (sg s)) (fst kw))) (snd kw) in
  let t2 := add (Sigma0 (sa s)) (Maj (sa s) (sb s) (sc s)) in
  State (add t1 t2) (sa s) (sb s) (sc s) (add (sd s) t1) (se s) (sf s) (sg s).

Definition compress (s : state) (block : list Z) : state :=
  let r := fold_left round (combine K (schedule block)) s in
  State (add (sa s) (sa r)) (add (sb s) (sb r)) (add (sc s) (sc r)) (add (sd s) (sd r))
        (add (se s) (se r)) (add (sf s) (sf r)) (add (sg s) (sg r)) (add (sh s) (sh r)).

Fixpoint blocks (fuel : nat) (words : list Z) : list (list Z) :=
  match fuel, words with
  | S fuel', _ :: _ => firstn 16 words :: blocks fuel' (skipn 16 words)
  | _, _ => []
  end.

Definition initial : state :=
  State (nth 0 H0 0) (nth 1 H0 0) (nth 2 H0 0) (nth 3 H0 0)
        (nth 4 H0 0) (nth 5 H0 0) (nth 6 H0 0) (nth 7 H0 0).

Definition digest (msg : list Z) : state :=
  let padded := pad msg in
  let words := be_words (length padded) padded in
  fold_left compress (blocks (length words) words) initial.

Definition hex_digit (d : Z) : ascii :=
  if d <? 10 then ascii_of_nat (48 + Z.to_nat d)
  else ascii_of_nat (87 + Z.to_nat d).

(** Eight lower-case hexadecimal digits of a word, then [rest]. *)
Definition hex_word (x : Z) (rest : string) : string :=
  fold_right (fun i acc => String (hex_digit (Z.land (Z.shiftr x (4 * Z.of_nat i)) 15)) acc)
             rest (rev (seq 0 8)).

Definition hexdigest (msg : list Z) : string :=
  let s := digest msg in
  hex_word (sa s) (hex_word (sb s) (hex_word (sc s) (hex_word (sd s)
    (hex_word (se s) (hex_word (sf s) (hex_word (sg s) (hex_word (sh s) ""))))))).
End Sha256.

(** [hashlib.sha256(content.encode('utf-8')).hexdigest()] *)
Definition sha256_hex (content : string) : string :=
  Sha256.hexdigest (utf8_encode content).

(** ** Manifest store and documentation directory *)

(** One value of the manifest's [files] dictionary. Every key of the JSON
    object may be absent in a manifest read back from disk, so every field
    is optional; the entries this script writes set the ones it names. *)
Record entry := {
  original_url : option string;
  original_md_url : option string;
  original_raw_url : option string;
  hash : option string;
  last_updated : option string;
  source : option string;
  category : option string
}.

Record fetch_metadata := {
  total_pages_discovered : nat;
  pages_fetched_successfully : nat;
  pages_failed : nat;
  failed_pages_reported : list string;
  discovery_methods : list (string * nat);
  total_files : nat
}.

Record manifest := {
  files : gmap string entry;
  manifest_last_updated : option string;
  metadata : option fetch_metadata
}.

(** A file of the documentation directory: the bytes of a text file, or
    the JSON text of a manifest, held as the manifest it parses to. *)
Inductive file :=
  | TextFile (bytes : list Z)
  | ManifestJson (m : manifest).

Definition empty_manifest : manifest :=
  {| files := ∅; manifest_last_updated := None; metadata := None |}.

(** [load_manifest]: a missing or unparsable manifest gives the empty one. *)
Definition load_manifest (docs_dir : gmap string file) : manifest :=
  match docs_dir !! MANIFEST_FILE with
  | Some (ManifestJson m) => m
  | _ => empty_manifest
  end.

(** [save_manifest]: stamps the manifest and writes it. The display-only
    keys derived from the process environment are left out. *)
Definition save_manifest
    (docs_dir : gmap string file) (m : manifest) (now : string) : gmap string file :=
  <[MANIFEST_FILE :=
      ManifestJson {| files := files m;
                      manifest_last_updated := Some now;
                      metadata := metadata m |}]> docs_dir.

Definition content_has_changed (content old_hash : string) : bool :=
  let new_hash := sha256_hex content in
  negb (String.eqb new_hash old_hash).

(** [save_markdown_file]: writes the encoded content, returns its hash. *)
Definition save_markdown_file
    (docs_dir : gmap string file) (filename content : string)
    : gmap string file * string :=
  (<[filename := TextFile (utf8_encode content)]> docs_dir, sha256_hex content).

(** [cleanup_old_files]: the loop over [previous_files - current_files];
    [unlink] of a file that does not exist is skipped, as [delete] is. *)
Definition cleanup_old_files
    (docs_dir : gmap string file) (current_files : gset string) (m : manifest)
    : gmap string file :=
  let previous_files : gset string := dom (files m) in
  let files_to_remove := previous_files ∖ current_files in
  set_fold (fun filename dir =>
              if decide (filename = MANIFEST_FILE) then dir  (* never delete the manifest *)
              else delete filename dir)
           docs_dir files_to_remove.

(** ** The orchestrator *)

(** What the world answers while one identity is processed: the GETs of
    its fetch and the clock. *)
Record env := {
  get : nat -> get_result;
  now : string
}.

(** [(full_url, page_name, category)] of [discover_claude_code_docs]. *)
Record code_doc := {
  code_url : string;
  code_page_name : string;
  code_category : string;
  code_env : env
}.

(** [(full_url, path)] of [discover_platform_docs]. *)
Record platform_doc := {
  platform_url : string;
  platform_path : string;
  platform_env : env
}.

(** The local variables of [main], the directory, and the filenames
    handed to [save_markdown_file] so far (oldest first). *)
Record run := {
  successful : nat;
  failed : nat;
  failed_pages : list string;
  fetched_files : gset string;
  new_files : gmap string entry;
  methods : list (string * nat);
  total_discovered : nat;
  docs_dir : gmap string file;
  saved : list string
}.

Definition start (dir : gmap string file) : run :=
  {| successful := 0; failed := 0; failed_pages := []; fetched_files := ∅;
     new_files := ∅; methods := []; total_discovered := 0;
     docs_dir := dir; saved := [] |}.

(** The block between a successful fetch and the end of the [try]: compare
    with the previous manifest, write on change, record the entry.
    [make_entry] builds the dictionary from the hash and the timestamp. *)
Definition sync_content
    (previous : manifest) (clock : string) (filename content : string)
    (make_entry : string -> string -> entry) (st : run) : run :=
  let old_entry := files previous !! filename in
  let old_hash := default "" (old_entry ≫= hash) in
  let '(content_hash, updated, dir, log) :=
    if content_has_changed content old_hash
    then let '(dir, h) := save_markdown_file (docs_dir st) filename content in
         (h, clock, dir, saved st ++ [filename])
    else (old_hash, default clock (old_entry ≫= last_updated), docs_dir st, saved st) in
  {| successful := S (successful st);
     failed := failed st;
     failed_pages := failed_pages st;
     fetched_files := {[filename]} ∪ fetched_files st;
     new_files := <[filename := make_entry content_hash updated]> (new_files st);
     methods := methods st;
     total_discovered := total_discovered st;
     docs_dir := dir;
     saved := log |}.

(** The [except Exception] handler of one identity. *)
Definition sync_failed (label : string) (st : run) : run :=
  {| successful := successful st;
     failed := S (failed st);
     failed_pages := failed_pages st ++ [label];
     fetched_files := fetched_files st;
     new_files := new_files st;
     methods := methods st;
     total_discovered := total_discovered st;
     docs_dir := docs_dir st;
     saved := saved st |}.

(** [filename, content = f(...)]: unpacking [None] raises [TypeError]. *)
Definition unpack (o : outcome (string * string)) : exn + string * string :=
  match o with
  | Return p => inr p
  | ReturnNone => inl UnpackNone
  | Raise e => inl e
  end.

Definition code_entry (doc : code_doc) (content_hash updated : string) : entry :=
  {| original_url := Some (PyStr.drop_last 3 (code_url doc));
     original_md_url := Some (code_url doc);
     original_raw_url := None;
     hash := Some content_hash;
     last_updated := Some updated;
     source := Some "code.claude.com";
     category := Some (code_category doc) |}.

Definition platform_entry (doc : platform_doc) (content_hash updated : string) : entry :=
  {| original_url := Some (PyStr.drop_last 3 (platform_url doc));
     original_md_url := Some (platform_url doc);
     original_raw_url := None;
     hash := Some content_hash;
     last_updated := Some updated;
     source := Some "platform.claude.com";
     category := None |}.

Definition changelog_entry (content_hash updated : string) : entry :=
  {| original_url := Some "https://github.com/anthropics/claude-code/blob/main/CHANGELOG.md";
     original_md_url := None;
     original_raw_url := Some "https://raw.githubusercontent.com/anthropics/claude-code/main/CHANGELOG.md";
     hash := Some content_hash;
     last_updated := Some updated;
     source := Some "claude-code-repository";
     category := None |}.

(** One iteration of the loop over the Claude Code docs. *)
Definition sync_code_doc (previous : manifest) (st : run) (doc : code_doc) : run :=
  let fetched :=
    fetch_markdown_content (get (code_env doc)) "code"
                           (Some (code_category doc)) (code_page_name doc) in
  match unpack (fst fetched) with
  | inr (filename, content) =>
      sync_content previous (now (code_env doc)) filename content (code_entry doc) st
  | inl _ => sync_failed ("code:" +:+ code_page_name doc) st
  end.

(** One iteration of the loop over the platform docs. *)
Definition sync_platform_doc (previous : manifest) (st : run) (doc : platform_doc) : run :=
  let fetched :=
    fetch_markdown_content (get (platform_env doc)) "platform" None (platform_path doc) in
  match unpack (fst fetched) with
  | inr (filename, content) =>
      sync_content previous (now (platform_env doc)) filename content (platform_entry doc) st
  | inl _ => sync_failed ("platform:" +:+ platform_path doc) st
  end.

(** The changelog block. *)
Definition sync_changelog (previous : manifest) (e : env) (st : run) : run :=
  match unpack (fst (fetch_changelog (get e))) with
  | inr (filename, content) =>
      sync_content previous (now e) filename content changelog_entry st
  | inl _ => sync_failed "changelog" st
  end.

(** A discovery that succeeded notes its method and count before the loop
    runs; one that raised leaves the state as it is. *)
Definition discovered {A} (name : string) (docs : list A) (st : run) : run :=
  {| successful := successful st;
     failed := failed st;
     failed_pages := failed_pages st;
     fetched_files := fetched_files st;
     new_files := new_files st;
     methods := methods st ++ [(name, length docs)];
     total_discovered := total_discovered st + length docs;
     docs_dir := docs_dir st;
     saved := saved st |}.

Definition sync_code_source
    (previous : manifest) (discovery : option (list code_doc)) (st : run) : run :=
  match discovery with
  | Some docs => fold_left (sync_code_doc previous) docs (discovered "code.claude.com" docs st)
  | None => st
  end.

Definition sync_platform_source
    (previous : manifest) (discovery : option (list platform_doc)) (st : run) : run :=
  match discovery with
  | Some docs =>
      fold_left (sync_platform_doc previous) docs (discovered "platform.claude.com" docs st)
  | None => st
  end.

(** Everything [main] is given by the outside world. A discovery that
    raised is [None]. *)
Record world := {
  code_discovery : option (list code_doc);
  platform_discovery : option (list platform_doc);
  changelog_env : env;
  finish : string
}.

(** The three sources in order. *)
Definition sync_all (previous : manifest) (w : world) (dir : gmap string file) : run :=
  sync_changelog previous (changelog_env w)
    (sync_platform_source previous (platform_discovery w)
       (sync_code_source previous (code_discovery w) (start dir))).

Record completed := {
  exit_code : Z;
  final_dir : gmap string file;
  written : manifest;
  local_state : run
}.

Definition main (dir : gmap string file) (w : world) : completed :=
  (* Load manifest *)
  let previous := load_manifest dir in
  let st := sync_all previous w dir in
  (* Clean up old files (only those we previously fetched) *)
  let cleaned := cleanup_old_files (docs_dir st) (fetched_files st) previous in
  (* Add metadata to manifest *)
  let new_manifest :=
    {| files := new_files st;
       manifest_last_updated := Some (finish w);
       metadata := Some {| total_pages_discovered := total_discovered st;
                           pages_fetched_successfully := successful st;
                           pages_failed := failed st;
                           failed_pages_reported := failed_pages st;
                           discovery_methods := methods st;
                           total_files := size (fetched_files st) |} |} in
  (* Save new manifest *)
  let final := save_manifest cleaned new_manifest (finish w) in
  {| exit_code := match failed_pages st with
                  | [] => 0
                  | _ :: _ => if successful st =? 0 then 1 else 0
                  end;
     final_dir := final;
     written := new_manifest;
     local_state := st |}.

(** ** The persisted repository identity ([save_manifest]) *)

(** [str.isalnum] on one code point below 256: the ASCII digits and
    letters, the superscript digits and the vulgar fractions, the
    ordinal indicators, the micro sign and the Latin-1 letters. *)
Definition is_alnum (a : ascii) : bool :=
  let n := nat_of_ascii a in
  ((48 <=? n) && (n <=? 57)) || ((65 <=? n) && (n <=? 90)) || ((97 <=? n) && (n <=? 122))
  || (n =? 170) || (n =? 178) || (n =? 179) || (n =? 181) || (n =? 185) || (n =? 186)
  || ((188 <=? n) && (n <=? 190)) || ((192 <=? n) && (n <=? 214))
  || ((216 <=? n) && (n <=? 246)) || ((248 <=? n) && (n <=? 255)).

(** The character class [[\w.-]] of the two patterns. *)
Definition identifier_char (a : ascii) : bool :=
  is_alnum a || Ascii.eqb a "_" || Ascii.eqb a "." || Ascii.eqb a "-".

Fixpoint all_chars (f : ascii -> bool) (s : string) : bool :=
  match s with
  | EmptyString => true
  | String a s' => f a && all_chars f s'
  end.

(** [[\w.-]+] matching the whole of [s]. *)
Definition identifier (s : string) : bool :=
  negb (String.eqb s "") && all_chars identifier_char s.

(** Where [$] may stand: at the end of the string, or before a newline
    that is its last character. What is left is what the pattern has to
    match in full. *)
Definition before_final_newline (s : string) : string :=
  if PyStr.endswith s (String newline "") then PyStr.drop_last 1 s else s.

(** [re.match(r'^[\w.-]+$', github_ref)] *)
Definition ref_matches (github_ref : string) : bool :=
  identifier (before_final_newline github_ref).

(** [re.match(r'^[\w.-]+/[\w.-]+$', github_repo)]: the class has no
    slash, so the slash of the pattern is the only one of the string. *)
Definition repository_matches (github_repo : string) : bool :=
  match PyStr.split_char "/" (before_final_newline github_repo) with
  | [owner; name] => identifier owner && identifier name
  | _ => false
  end.

(** The repository and the ref [save_manifest] persists, from the values
    of [GITHUB_REPOSITORY] and [GITHUB_REF_NAME] ([None]: not set). *)
Definition validated_repository (env_value : option string) : string :=
  let github_repo := default "kreitter/claude-docs" env_value in
  if repository_matches github_repo then github_repo else "kreitter/claude-docs".

Definition validated_ref (env_value : option string) : string :=
  let github_ref := default "main" env_value in
  if ref_matches github_ref then github_ref else "main".

Definition base_url (repository_env ref_env : option string) : string :=
  "https://raw.githubusercontent.com/" +:+ validated_repository repository_env
  +:+ "/" +:+ validated_ref ref_env +:+ "/docs/".

(** ** Discovery *)

Definition CLAUDE_CODE_LINKS : string := "https://code.claude.com/docs/en/".
Definition PLATFORM_LINKS : string := "https://platform.claude.com/docs/en/".

Definition BUILD_WITH_CLAUDE_CODE_PAGES : list string :=
  [ "sub-agents"; "plugins"; "discover-plugins"; "plugin-marketplaces";
    "skills"; "output-styles"; "hooks-guide"; "headless"; "mcp";
    "troubleshooting"; "devcontainer" ].

Definition REFERENCE_PAGES : list string :=
  [ "cli-reference"; "interactive-mode"; "slash-commands"; "checkpointing";
    "hooks"; "plugins-reference" ].

(** [page_name in PAGES] *)
Definition page_in (page_name : string) (pages : list string) : bool :=
  existsb (String.eqb page_name) pages.

(** [s[n:]] *)
Fixpoint str_drop (n : nat) (s : string) : string :=
  match n, s with
  | S n', String _ s' => str_drop n' s'
  | _, _ => s
  end.

(** [[^)]+] up to the [\)] that must follow: the characters before the
    next closing parenthesis, if there is one. *)
Fixpoint until_paren (s : string) : option string :=
  match s with
  | EmptyString => None
  | String a s' =>
      if Ascii.eqb a ")" then Some EmptyString
      else option_map (String a) (until_paren s')
  end.

(** The tail [\]\((prefix([^)]+)\.md)\)] of both patterns at the
    start of [s]: the text between the prefix and the closing
    parenthesis, which has to end in [.md] after at least one character.
    The greedy class stops at the parenthesis, so there is one way to
    match at most. *)
Definition link_target (prefix s : string) : option string :=
  if PyStr.startswith s ("](" +:+ prefix) then
    match until_paren (str_drop (2 + PyStr.len prefix) s) with
    | Some target =>
        if PyStr.endswith target ".md" && (3 <? PyStr.len target)
        then Some target else None
    | None => None
    end
  else None.

(** [pattern.finditer(text)] for both patterns, giving the text between
    the prefix and the parenthesis of every match. [opened] says that a
    bracket [\[] has been seen since the last match and the last
    newline, so that the lazy [.*?] can reach the current position;
    [skip] counts the characters of a match still to pass over. *)
Fixpoint find_links (prefix : string) (opened : bool) (skip : nat) (s : string)
    : list string :=
  match s with
  | EmptyString => []
  | String a s' =>
      match skip with
      | S skip' => find_links prefix false skip' s'
      | O =>
          match (if opened then link_target prefix s else None) with
          | Some target =>
              target :: find_links prefix false (2 + PyStr.len prefix + PyStr.len target) s'
          | None =>
              find_links prefix
                         (if Ascii.eqb a "[" then true
                          else if Ascii.eqb a newline then false else opened)
                         0 s'
          end
      end
  end.

(** The loop of [discover_claude_code_docs] over the matches: pages of
    neither set are dropped (and logged). *)
Fixpoint categorize (targets : list string) : list (string * string * string) :=
  match targets with
  | [] => []
  | target :: rest =>
      let page_name := PyStr.drop_last 3 target in
      let full_url := (CLAUDE_CODE_LINKS +:+ page_name) +:+ ".md" in
      if page_in page_name BUILD_WITH_CLAUDE_CODE_PAGES
      then (full_url, page_name, "bwc") :: categorize rest
      else if page_in page_name REFERENCE_PAGES
      then (full_url, page_name, "ref") :: categorize rest
      else categorize rest
  end.

(** [discover_claude_code_docs], given what the GET of the link list
    does; [None] when the function raises. *)
Definition discover_claude_code_docs (llms : get_result)
    : option (list (string * string * string)) :=
  match llms with
  | GetRaises => None
  | GetReturns response =>
      if raises_for_status response then None
      else Some (categorize (find_links CLAUDE_CODE_LINKS false 0 (text response)))
  end.

(** [discover_platform_docs]: every match is kept. *)
Definition discover_platform_docs (llms : get_result) : option (list (string * string)) :=
  match llms with
  | GetRaises => None
  | GetReturns response =>
      if raises_for_status response then None
      else Some (List.map (fun path => (PLATFORM_LINKS +:+ path, path))
                          (find_links PLATFORM_LINKS false 0 (text response)))
  end.

(** ** The migration script ([migrate_filenames.py]) *)

Definition new_url_to_safe_filename (url_path : string) : string :=
  (* Strip universal language prefix *)
  let path := if PyStr.startswith url_path "/en/" then str_drop 4 url_path else url_path in
  (* Clean leading/trailing slashes *)
  let path := PyStr.strip_char "/" path in
  (* Convert path separators to double underscores *)
  let safe_name := PyStr.replace_char "/" "__" path in
  (* Ensure .md extension *)
  if PyStr.endswith safe_name ".md" then safe_name else safe_name +:+ ".md".

(** A link list as the sites publish it: one markdown link per line. *)
Definition link_line (prefix : string) (link : string * string) : string :=
  "- [" +:+ fst link +:+ "](" +:+ prefix +:+ snd link +:+ ")" +:+ String newline "".

Fixpoint link_list (prefix : string) (links : list (string * string)) : string :=
  match links with
  | [] => EmptyString
  | link :: rest => link_line prefix link +:+ link_list prefix rest
  end.

(** A link the patterns are meant for: a path without a closing
    parenthesis that ends in [.md] after at least one character, and a
    title without a closing bracket and without a newline. *)
Definition plain_link (link : string * string) : bool :=
  negb (PyStr.contains "]" (fst link))
  && negb (PyStr.contains (String newline "") (fst link))
  && negb (PyStr.contains ")" (snd link))
  && PyStr.endswith (snd link) ".md" && (3 <? PyStr.len (snd link)).

(** The pages [discover_claude_code_docs] can return, with the category
    it gives each. *)
Definition code_pages : list (string * string) :=
  List.map (fun page => (page, "bwc")) BUILD_WITH_CLAUDE_CODE_PAGES
  ++ List.map (fun page => (page, "ref")) REFERENCE_PAGES.

(** The filename [main] gives a discovered Claude Code page. *)
Definition discovered_code_filename (doc : string * string * string) : string :=
  url_to_safe_filename (snd (fst doc)) "code" (Some (snd doc)).

(** ** Vocabulary of the statements *)

(** The first step of the normaliser on its own: one trailing [.md] is
    removed, if there is one. *)
Definition without_md (url_path : string) : string :=
  if PyStr.endswith url_path ".md" then PyStr.drop_last 3 url_path else url_path.




(** The first test of the validator. *)
Definition looks_like_html (content : string) : bool :=
  String.eqb content ""
  || PyStr.startswith content "<!DOCTYPE"
  || PyStr.contains "<html" (PyStr.take 100 content).

(** How many of the first 50 lines carry at least one indicator. *)
Definition indicator_lines (content : string) : nat :=
  length (List.filter line_has_indicator (firstn 50 (PyStr.split_char newline content))).

(** The distinct indicators that occur somewhere in the text. *)
Definition indicators_present (content : string) : list string :=
  List.filter (fun indicator => PyStr.contains indicator content) markdown_indicators.

Definition mentions_doc_pattern (content : string) : bool :=
  existsb (fun pattern => PyStr.contains pattern (PyStr.lower content)) doc_patterns.

(** A rate-limited response carrying the given [Retry-After] header. *)
Definition rate_limited (h : retry_after) : get_result :=
  GetReturns {| status_code := 429; retry_after_header := h; text := "" |}.

(** A response with status 200 and the given body. *)
Definition ok_response (body : string) : get_result :=
  GetReturns {| status_code := 200; retry_after_header := RetryAfterAbsent; text := body |}.

(** The header lets the loop wait: [int()] accepts it and [time.sleep]
    waits the number out. *)
Definition waitable (h : retry_after) : bool :=
  match h with
  | RetryAfterAbsent => true
  | RetryAfterInt seconds => ((0 <=? seconds) && (seconds <=? SLEEP_MAX))%Z
  | RetryAfterRefused _ | RetryAfterMalformed => false
  end.

(** The GETs of a fetch given as a list, then [otherwise] for ever. *)
Definition script (answers : list get_result) (otherwise : get_result) : nat -> get_result :=
  fun attempt => nth attempt answers otherwise.

(** A small page the validator accepts. *)
Definition sample_page : string :=
  "# Title" +:+ String newline "- first item in the list of things"
  +:+ String newline "- second item in the list of things".

(** Every attempt of the list is answered by a 429 the loop can wait on. *)
Definition all_rate_limited (get : nat -> get_result) (attempts : list nat) : Prop :=
  forall attempt, In attempt attempts ->
    exists r, get attempt = GetReturns r
              /\ status_code r = 429%Z /\ waitable (retry_after_header r) = true.

(** Did the fetch hand a [(filename, content)] pair to [main]? *)
Definition fetched {A} (o : outcome A * list wait) : bool :=
  match fst o with
  | Return _ => true
  | _ => false
  end.

Definition code_doc_fetched (doc : code_doc) : bool :=
  fetched (fetch_markdown_content (get (code_env doc)) "code"
                                  (Some (code_category doc)) (code_page_name doc)).

Definition platform_doc_fetched (doc : platform_doc) : bool :=
  fetched (fetch_markdown_content (get (platform_env doc)) "platform" None
                                  (platform_path doc)).

(** The number of identities of the three sources that are synced. *)
Definition synced_count (w : world) : nat :=
  length (List.filter code_doc_fetched (default [] (code_discovery w)))
  + length (List.filter platform_doc_fetched (default [] (platform_discovery w)))
  + (if fetched (fetch_changelog (get (changelog_env w))) then 1 else 0).

(** *** Runs as sequences of synced identities *)

(** Where a synced identity comes from; it decides the shape of its entry. *)
Inductive origin :=
  | FromCode (doc : code_doc)
  | FromPlatform (doc : platform_doc)
  | FromChangelog.

Definition make_entry (o : origin) : string -> string -> entry :=
  match o with
  | FromCode doc => code_entry doc
  | FromPlatform doc => platform_entry doc
  | FromChangelog => changelog_entry
  end.

(** An identity whose fetch returned: what [main] holds when it enters
    the block modelled by [sync_content]. *)
Record item := {
  item_filename : string;
  item_content : string;
  item_origin : origin;
  item_clock : string
}.

Definition code_item (doc : code_doc) : option item :=
  match unpack (fst (fetch_markdown_content (get (code_env doc)) "code"
                                            (Some (code_category doc))
                                            (code_page_name doc))) with
  | inr (filename, content) =>
      Some {| item_filename := filename; item_content := content;
              item_origin := FromCode doc; item_clock := now (code_env doc) |}
  | inl _ => None
  end.

Definition platform_item (doc : platform_doc) : option item :=
  match unpack (fst (fetch_markdown_content (get (platform_env doc)) "platform" None
                                            (platform_path doc))) with
  | inr (filename, content) =>
      Some {| item_filename := filename; item_content := content;
              item_origin := FromPlatform doc; item_clock := now (platform_env doc) |}
  | inl _ => None
  end.

Definition changelog_item (e : env) : option item :=
  match unpack (fst (fetch_changelog (get e))) with
  | inr (filename, content) =>
      Some {| item_filename := filename; item_content := content;
              item_origin := FromChangelog; item_clock := now e |}
  | inl _ => None
  end.

(** The synced identities of a run, in the order [main] meets them. *)
Definition items (w : world) : list item :=
  omap code_item (default [] (code_discovery w))
  ++ omap platform_item (default [] (platform_discovery w))
  ++ option_list (changelog_item (changelog_env w)).

Definition sync_item (previous : manifest) (st : run) (it : item) : run :=
  sync_content previous (item_clock it) (item_filename it) (item_content it)
               (make_entry (item_origin it)) st.

(** The timestamp [sync_content] gives the entry of an item. *)
Definition stamp (previous : manifest) (it : item) : string :=
  let old_entry := files previous !! item_filename it in
  if content_has_changed (item_content it) (default "" (old_entry ≫= hash))
  then item_clock it
  else default (item_clock it) (old_entry ≫= last_updated).

(** The part of the state the synced identities act on. *)
Definition core (st : run) : gset string * gmap string entry * gmap string file * list string :=
  (fetched_files st, new_files st, docs_dir st, saved st).

(** The filenames of all discovered pages, fetched or not. *)
Definition code_filename (doc : code_doc) : string :=
  url_to_safe_filename (code_page_name doc) "code" (Some (code_category doc)).

Definition platform_filename (doc : platform_doc) : string :=
  url_to_safe_filename (platform_path doc) "platform" None.

Definition filenames (w : world) : list string :=
  (code_filename <$> default [] (code_discovery w))
  ++ (platform_filename <$> default [] (platform_discovery w)).

(** Hash integrity: every entry has its file, and the stored hash is the
    digest of the bytes of that file. *)
Definition hash_integrity (entries : gmap string entry) (dir : gmap string file) : Prop :=
  forall filename e, entries !! filename = Some e ->
    exists bytes, dir !! filename = Some (TextFile bytes)
                  /\ hash e = Some (Sha256.hexdigest bytes).

(** Two worlds with the same remote side: the same discoveries and the
    same answers to every GET; the clocks may differ. *)
Definition same_env (e e' : env) : Prop :=
  forall attempt, get e attempt = get e' attempt.

Definition same_code_doc (d d' : code_doc) : Prop :=
  code_url d = code_url d' /\ code_page_name d = code_page_name d'
  /\ code_category d = code_category d' /\ same_env (code_env d) (code_env d').

Definition same_platform_doc (d d' : platform_doc) : Prop :=
  platform_url d = platform_url d' /\ platform_path d = platform_path d'
  /\ same_env (platform_env d) (platform_env d').

Definition same_remote (w w' : world) : Prop :=
  option_Forall2 (Forall2 same_code_doc) (code_discovery w) (code_discovery w')
  /\ option_Forall2 (Forall2 same_platform_doc) (platform_discovery w) (platform_discovery w')
  /\ same_env (changelog_env w) (changelog_env w').

Definition same_item (it it' : item) : Prop :=
  item_filename it = item_filename it' /\ item_content it = item_content it'
  /\ forall h u, make_entry (item_origin it) h u = make_entry (item_origin it') h u.

(** *** A world in which two pages share a filename *)

Definition second_page : string :=
  "# Other" +:+ String newline "- alpha item in the list of things"
  +:+ String newline "- beta item in the list of things".

(** A platform page whose every GET answers 200 with [body]. *)
Definition platform_page (path body clock : string) : platform_doc :=
  {| platform_url := "https://platform.claude.com/docs/en/" +:+ path;
     platform_path := path;
     platform_env := {| get := fun _ => ok_response body; now := clock |} |}.

(** The link list names [a/b.md] and [a__b.md]; both pages are valid and
    differ; the changelog cannot be reached. *)
Definition colliding_world (clock : string) : world :=
  {| code_discovery := Some [];
     platform_discovery := Some [platform_page "a/b.md" sample_page clock;
                                 platform_page "a__b.md" second_page clock];
     changelog_env := {| get := fun _ => GetRaises; now := clock |};
     finish := clock |}.

(** A world without collisions: one page of each origin and a changelog. *)
Definition plain_world (clock : string) : world :=
  {| code_discovery :=
       Some [{| code_url := "https://code.claude.com/docs/en/hooks.md";
                code_page_name := "hooks";
                code_category := "ref";
                code_env := {| get := fun _ => ok_response sample_page; now := clock |} |}];
     platform_discovery := Some [platform_page "api/messages.md" second_page clock];
     changelog_env := {| get := fun _ => ok_response ""; now := clock |};
     finish := clock |}.

(** The link list names [a/b.md] and [a__b.md] as in [colliding_world],
    but [a/b.md] cannot be fetched: one identity is synced. *)
Definition half_colliding_world (clock : string) : world :=
  {| code_discovery := Some [];
     platform_discovery :=
       Some [{| platform_url := "https://platform.claude.com/docs/en/a/b.md";
                platform_path := "a/b.md";
                platform_env := {| get := fun _ => GetRaises; now := clock |} |};
             platform_page "a__b.md" second_page clock];
     changelog_env := {| get := fun _ => GetRaises; now := clock |};
     finish := clock |}.

(** A world in which nothing can be reached. *)
Definition unreachable_world (clock : string) : world :=
  {| code_discovery := None;
     platform_discovery := None;
     changelog_env := {| get := fun _ => GetRaises; now := clock |};
     finish := clock |}.

(** *** Vocabulary of the fetch loops *)

(** An answer the loops treat as a transport failure: [session.get]
    raised, or [raise_for_status] raises on a status other than 429. *)
Definition transport_failure (g : get_result) : bool :=
  match g with
  | GetRaises => true
  | GetReturns r => negb (status_code r =? 429)%Z && raises_for_status r
  end.

(** An answer after which the loop goes on to the next attempt, when
    one is left: a transport failure, or a 429 it can wait on. *)
Definition retried (g : get_result) : bool :=
  match g with
  | GetRaises => true
  | GetReturns r =>
      if (status_code r =? 429)%Z then waitable (retry_after_header r)
      else raises_for_status r
  end.

(** An error page of a web server, longer than 100 characters. *)
Definition html_page : string :=
  "<!DOCTYPE html><html><head><title>Not found</title></head>"
  +:+ "<body><h1>Not found</h1><p>The requested page does not exist.</p></body></html>".

(** A wait the loops can make: a rate-limit wait of a non-negative number
    of seconds, or the back-off before the second or the third attempt. *)
Definition possible_wait (w : wait) : Prop :=
  match w with
  | RateLimitWait seconds => (0 <= seconds)%Z
  | BackoffWait delay => delay = 2%Z \/ delay = 4%Z
  end.

(** *** Vocabulary of the run statistics *)

(** The counters of a state agree with each other while [pending]
    discovered identities are still to be processed: every processed one
    is counted once, as a success or as a failure, and every failure has
    its label. *)
Definition tallied (pending : nat) (st : run) : Prop :=
  successful st + failed st + pending = total_discovered st
  /\ length (failed_pages st) = failed st.

(** *** Vocabulary of the directory invariants *)

(** Every file the manifest lists exists ([test_no_missing_files]). *)
Definition no_missing_files (entries : gmap string entry) (dir : gmap string file) : Prop :=
  forall filename, filename ∈ dom entries -> is_Some (dir !! filename).

(** Every file of the directory other than the manifest is listed
    ([test_no_orphaned_files], for a directory of markdown files). *)
Definition no_orphaned_files (entries : gmap string entry) (dir : gmap string file) : Prop :=
  forall filename, is_Some (dir !! filename) -> filename <> MANIFEST_FILE ->
                   filename ∈ dom entries.

(** The directory a first run over [plain_world] leaves behind. *)
Definition synced_dir : gmap string file :=
  final_dir (main ∅ (plain_world "2025-01-01")).

(** * Properties *)

(** ** The model on known values *)

Example normalise_bwc :
  url_to_safe_filename "hooks-guide" "code" (Some "bwc") = "code__bwc__hooks-guide.md".
Proof. reflexivity. Qed.

Example normalise_platform :
  url_to_safe_filename "api/messages.md" "platform" None = "platform__api__messages.md".
Proof. reflexivity. Qed.

Example normalise_slashes :
  url_to_safe_filename "//a/b/.md" "platform" None = "platform__a__b.md".
Proof. reflexivity. Qed.

Example sha256_empty :
  sha256_hex "" = "e3b0c44298fc1c149afbf4c8996fb92427ae41e4649b934ca495991b7852b855".
Proof. vm_compute. reflexivity. Qed.

Example sha256_abc :
  sha256_hex "abc" = "ba7816bf8f01cfea414140de5dae2223b00361a396177a9cb410ff61f20015ad".
Proof. vm_compute. reflexivity. Qed.

Example sha256_two_blocks :
  sha256_hex "abcdbcdecdefdefgefghfghighijhijkijkljklmklmnlmnomnopnopq"
  = "248d6a61d20638b8e5c026930c3e6039a33ce45964ff2167f6ecedd419db06c1".
Proof. vm_compute. reflexivity. Qed.


(** ** Facts about the string primitives *)

#[local] Arguments String.append !_ _ / : simpl nomatch.

Section string_facts.
Implicit Types (s t u : string) (a c : ascii).

Lemma app_empty_r s : s +:+ "" = s.
Proof. induction s as [|a s IH]; simpl; [done | by rewrite IH]. Qed.

Lemma app_assoc_str s t u : (s +:+ t) +:+ u = s +:+ (t +:+ u).
Proof. induction s as [|a s IH]; simpl; [done | by rewrite IH]. Qed.

Lemma len_app s t : PyStr.len (s +:+ t) = PyStr.len s + PyStr.len t.
Proof. unfold PyStr.len. induction s as [|a s IH]; simpl; [done | by rewrite IH]. Qed.

Lemma app_inv_tail_str s t u : s +:+ u = t +:+ u -> s = t.
Proof.
  revert t. induction s as [|a s IH]; intros [|b t] H; simpl in H.
  - done.
  - apply (f_equal PyStr.len) in H. change (String b (t +:+ u)) with (String b t +:+ u) in H.
    rewrite len_app in H. simpl in H. lia.
  - apply (f_equal PyStr.len) in H. change (String a (s +:+ u)) with (String a s +:+ u) in H.
    rewrite len_app in H. simpl in H. lia.
  - injection H as -> H. f_equal. by apply IH.
Qed.

Lemma has_char_app c s t :
  PyStr.has_char c (s +:+ t) <-> PyStr.has_char c s \/ PyStr.has_char c t.
Proof. induction s as [|a s IH]; simpl; tauto. Qed.

Lemma contains_char c s :
  PyStr.contains (String c "") s = true <-> PyStr.has_char c s.
Proof.
  induction s as [|a s IH]; simpl.
  - split; [discriminate | tauto].
  - rewrite orb_true_iff, IH.
    destruct (Ascii.eqb_spec a c); simpl; intuition congruence.
Qed.




Lemma lstrip_char_has_char c a s :
  PyStr.has_char c (PyStr.lstrip_char a s) -> PyStr.has_char c s.
Proof.
  induction s as [|b s IH]; simpl; [done|].
  destruct (Ascii.eqb b a); simpl; tauto.
Qed.

Lemma rstrip_char_has_char c a s :
  PyStr.has_char c (PyStr.rstrip_char a s) -> PyStr.has_char c s.
Proof.
  induction s as [|b s IH]; simpl; [done|].
  destruct (PyStr.rstrip_char a s) as [|x r].
  - destruct (Ascii.eqb b a); simpl; tauto.
  - simpl in *. tauto.
Qed.

Lemma take_len_app s t : PyStr.take (PyStr.len s) (s +:+ t) = s.
Proof. induction s as [|a s IH]; simpl; [by destruct t | by rewrite IH]. Qed.

Lemma drop_last_app s t : PyStr.drop_last (PyStr.len t) (s +:+ t) = s.
Proof.
  unfold PyStr.drop_last. rewrite len_app.
  replace (PyStr.len s + PyStr.len t - PyStr.len t) with (PyStr.len s) by lia.
  apply take_len_app.
Qed.

Lemma endswith_spec s suf :
  PyStr.endswith s suf = true <-> exists t, s = t +:+ suf.
Proof.
  induction s as [|a s IH]; cbn [PyStr.endswith].
  - rewrite orb_false_r, String.eqb_eq. split.
    + intros <-. by exists "".
    + intros [[|b t] H]; simpl in H; [done | discriminate].
  - rewrite orb_true_iff, String.eqb_eq, IH. split.
    + intros [<- | [t ->]]; [by exists "" | by exists (String a t)].
    + intros [[|b t] H]; simpl in H; [by left | right].
      injection H as -> ->. by exists t.
Qed.

Lemma endswith_app s suf : PyStr.endswith (s +:+ suf) suf = true.
Proof. apply endswith_spec. by exists s. Qed.

Lemma endswith_drop_last s suf :
  PyStr.endswith s suf = true -> s = PyStr.drop_last (PyStr.len suf) s +:+ suf.
Proof. intros [t ->]%endswith_spec. by rewrite drop_last_app. Qed.

(** A suffix without [c] of a string lies behind the last [c]. *)
Lemma endswith_behind c s t suf :
  ~ PyStr.has_char c suf ->
  PyStr.endswith (s +:+ String c t) suf = PyStr.endswith t suf.
Proof.
  intros Hc.
  assert (forall u, PyStr.has_char c u -> (u =? suf)%string = false) as Hne.
  { intros u Hu. apply String.eqb_neq. by intros <-. }
  induction s as [|a s IH].
  - change ("" +:+ String c t) with (String c t).
    cbn [PyStr.endswith]. rewrite Hne; [done | by left].
  - change (String a s +:+ String c t) with (String a (s +:+ String c t)).
    cbn [PyStr.endswith]. rewrite IH, Hne; [done|].
    right. apply has_char_app. right. by left.
Qed.

Lemma endswith_app_same s t suf :
  PyStr.endswith (s +:+ suf) (t +:+ suf) = PyStr.endswith s t.
Proof.
  apply eq_true_iff_eq. rewrite !endswith_spec. split.
  - intros [u H]. exists u. rewrite <- app_assoc_str in H. by apply app_inv_tail_str in H.
  - intros [u ->]. exists u. by rewrite app_assoc_str.
Qed.

Lemma replace_slash_id s :
  ~ PyStr.has_char "/" s -> PyStr.replace_char "/" "__" s = s.
Proof.
  induction s as [|a s IH]; simpl; [done|]. intros H.
  destruct (Ascii.eqb_spec a "/") as [->|_]; [tauto|]. rewrite IH; tauto.
Qed.

Lemma replace_slash_underscore s :
  PyStr.has_char "/" s -> PyStr.has_char "_" (PyStr.replace_char "/" "__" s).
Proof.
  induction s as [|a s IH]; simpl; [done|]. intros H.
  destruct (Ascii.eqb_spec a "/") as [->|Hne]; simpl; [by left|].
  right. apply IH. destruct H; congruence.
Qed.

Lemma has_char_dec c s : PyStr.has_char c s \/ ~ PyStr.has_char c s.
Proof.
  induction s as [|a s IH]; simpl; [tauto|].
  destruct (ascii_dec a c); tauto.
Qed.


(** The joiner neither creates nor destroys a trailing [.md]. *)
Lemma replace_slash_endswith_md s :
  PyStr.endswith (PyStr.replace_char "/" "__" s) ".md" = PyStr.endswith s ".md".
Proof.
  induction s as [|a s IH]; [done|].
  cbn [PyStr.replace_char PyStr.endswith].
  destruct (Ascii.eqb_spec a "/") as [->|Ha].
  - change ("__" +:+ ?r) with (String "_" (String "_" r)).
    cbn [PyStr.endswith]. rewrite IH. reflexivity.
  - cbn [PyStr.endswith]. rewrite IH. f_equal.
    apply eq_true_iff_eq. rewrite !String.eqb_eq. split.
    + intros H. injection H as -> H. f_equal.
      destruct (has_char_dec "/" s) as [Hs|Hs].
      * apply replace_slash_underscore in Hs. rewrite H in Hs. simpl in Hs.
        intuition discriminate.
      * by rewrite replace_slash_id in H.
    + intros H. injection H as -> ->. reflexivity.
Qed.

End string_facts.

(** ** The filename normaliser *)

Section normaliser.
Implicit Types (p s : string) (c : option string).




Lemma url_to_safe_filename_unfold p s c :
  url_to_safe_filename p s c
  = (if String.eqb s "code" && PyStr.truthy c
     then "code__" +:+ category_text c else s)
    +:+ "__" +:+ PyStr.replace_char "/" "__" (PyStr.strip_char "/" (without_md p)) +:+ ".md".
Proof. reflexivity. Qed.

(** Every filename carries the markdown suffix and the joiner. *)
Lemma url_to_safe_filename_endswith_md p s c :
  PyStr.endswith (url_to_safe_filename p s c) ".md" = true.
Proof.
  rewrite url_to_safe_filename_unfold, <- !app_assoc_str. apply endswith_app.
Qed.

Lemma url_to_safe_filename_has_underscore p s c :
  PyStr.has_char "_" (url_to_safe_filename p s c).
Proof.
  rewrite url_to_safe_filename_unfold. apply has_char_app. right. by left.
Qed.

Lemma url_to_safe_filename_not_changelog p s c :
  url_to_safe_filename p s c <> "changelog.md".
Proof.
  intros H. pose proof (url_to_safe_filename_has_underscore p s c) as Hu.
  rewrite H in Hu. simpl in Hu. intuition discriminate.
Qed.

Lemma url_to_safe_filename_not_manifest p s c :
  url_to_safe_filename p s c <> MANIFEST_FILE.
Proof.
  intros H. pose proof (url_to_safe_filename_endswith_md p s c) as Hu.
  rewrite H in Hu. discriminate.
Qed.

End normaliser.




(** C9, as the specification states it, fails when the path itself ends
    in the suffix: only one suffix is removed, so appending one more
    changes the filename, and the filename built from [a.md.md] ends in a
    doubled suffix. *)
Lemma url_to_safe_filename_doubled_suffix :
  url_to_safe_filename ("a.md" +:+ ".md") "platform" None
  <> url_to_safe_filename "a.md" "platform" None
  /\ PyStr.endswith (url_to_safe_filename "a.md.md" "platform" None) ".md.md" = true
  /\ PyStr.endswith (url_to_safe_filename "a.md/" "platform" None) ".md.md" = true.
Proof. repeat split; (discriminate || reflexivity). Qed.

(** C9, amended: exactly one trailing suffix is removed. For every path
    that does not itself end in the suffix, the path with the suffix
    appended yields the same filename; and a filename ends in a doubled
    suffix exactly when the path, once one suffix and the slashes around
    it are removed, still ends in the suffix. *)
Theorem url_to_safe_filename_strips_one_suffix
    (x source : string) (category : option string) :
  (PyStr.endswith x ".md" = false ->
   url_to_safe_filename (x +:+ ".md") source category
   = url_to_safe_filename x source category)
  /\ PyStr.endswith (url_to_safe_filename x source category) ".md.md"
     = PyStr.endswith (PyStr.strip_char "/" (without_md x)) ".md".
Proof.
  split.
  - intros Hx. rewrite !url_to_safe_filename_unfold. do 5 f_equal.
    unfold without_md. rewrite endswith_app, Hx.
    apply (drop_last_app x ".md").
  - rewrite url_to_safe_filename_unfold.
    match goal with
    | |- context [?p +:+ "__" +:+ ?q +:+ ".md"] => generalize p; intros pre; set (r := q)
    end.
    change ".md.md" with (".md" +:+ ".md").
    change (pre +:+ "__" +:+ r +:+ ".md") with (pre +:+ "_" +:+ String "_" (r +:+ ".md")).
    rewrite <- !app_assoc_str.
    replace ((pre +:+ "_") +:+ String "_" (r +:+ ".md"))
      with (((pre +:+ "_") +:+ String "_" r) +:+ ".md")
      by (rewrite !app_assoc_str; reflexivity).
    rewrite endswith_app_same, endswith_behind.
    + apply replace_slash_endswith_md.
    + simpl. intuition discriminate.
Qed.

Lemma url_to_safe_filename_strips_one_suffix_witness :
  PyStr.endswith "api/messages" ".md" = false
  /\ url_to_safe_filename ("api/messages" +:+ ".md") "platform" None
     = url_to_safe_filename "api/messages" "platform" None.
Proof.
  split; [reflexivity|].
  apply (proj1 (url_to_safe_filename_strips_one_suffix "api/messages" "platform" None)).
  reflexivity.
Defined.

(** ** The content validator *)

Section validator.
Implicit Types (s content : string).

Lemma len_lstrip s : PyStr.len (PyStr.lstrip s) <= PyStr.len s.
Proof.
  induction s as [|a s IH]; simpl; [done|].
  destruct (PyStr.is_space a); simpl; unfold PyStr.len in *; lia.
Qed.

Lemma len_rstrip s : PyStr.len (PyStr.rstrip s) <= PyStr.len s.
Proof.
  unfold PyStr.len. induction s as [|a s IH]; simpl; [done|].
  destruct (PyStr.rstrip s) as [|b r].
  - destruct (PyStr.is_space a); simpl; lia.
  - simpl in *. lia.
Qed.

Lemma len_strip s : PyStr.len (PyStr.strip s) <= PyStr.len s.
Proof.
  unfold PyStr.strip. etrans; [apply len_rstrip | apply len_lstrip].
Qed.

(** The counting loop, whatever the count it starts from. *)
Lemma count_loop (lines : list string) (n : nat) :
  fold_left (fun indicator_count line =>
               if line_has_indicator line then S indicator_count else indicator_count)
            lines n
  = n + length (List.filter line_has_indicator lines).
Proof.
  revert n. induction lines as [|l lines IH]; intros n; simpl; [lia|].
  rewrite IH. destruct (line_has_indicator l); simpl; lia.
Qed.

Lemma count_indicators_lines content :
  count_indicators (PyStr.split_char newline content) = indicator_lines content.
Proof. unfold count_indicators, indicator_lines. by rewrite count_loop. Qed.

(** The validator as a decision list. *)
Lemma validate_markdown_content_cases content :
  validate_markdown_content content =
    if looks_like_html content then Rejected ReceivedHtml
    else if PyStr.len (PyStr.strip content) <? 50
         then Rejected (ContentTooShort (PyStr.len content))
    else if indicator_lines content <? 3
         then Rejected (NotMarkdown (indicator_lines content))
    else Accepted (negb (mentions_doc_pattern content)).
Proof.
  unfold validate_markdown_content, looks_like_html, mentions_doc_pattern.
  by rewrite count_indicators_lines.
Qed.

End validator.

(** C7, as the specification states it, fails on a one-line document: the
    text below is not empty, is not HTML, is longer than the threshold and
    shows four distinct indicators, yet it is rejected, because the loop
    counts lines that carry an indicator, each line once. *)
Lemma validate_markdown_content_counts_lines :
  let content :=
    "# Heading with **bold** text and a [link](https://example.com/page) inline" in
  looks_like_html content = false
  /\ 50 <= PyStr.len (PyStr.strip content)
  /\ 3 <= length (indicators_present content)
  /\ validate_markdown_content content = Rejected (NotMarkdown 1).
Proof. vm_compute. repeat split; lia. Qed.

(** C7, amended: the validator rejects exactly when the text is empty,
    starts with a document-type declaration, contains an HTML root tag in
    its first 100 characters, has a stripped length below 50, or has fewer
    than 3 lines with a markdown indicator among its first 50 lines (a line
    counts once). A text starting with the declaration is rejected as HTML,
    a 20-character text that is not HTML as too short, a text that passes
    the first two tests and has 3 indicator lines is accepted, and the
    topical keywords only decide the warning. *)
Theorem validate_markdown_content_rejects_exactly (content : string) :
  ((exists why, validate_markdown_content content = Rejected why) <->
     content = ""
     \/ PyStr.startswith content "<!DOCTYPE" = true
     \/ PyStr.contains "<html" (PyStr.take 100 content) = true
     \/ PyStr.len (PyStr.strip content) < 50
     \/ indicator_lines content < 3)
  /\ (PyStr.startswith content "<!DOCTYPE" = true ->
      validate_markdown_content content = Rejected ReceivedHtml)
  /\ (looks_like_html content = false -> PyStr.len content = 20 ->
      validate_markdown_content content = Rejected (ContentTooShort 20))
  /\ (looks_like_html content = false -> 50 <= PyStr.len (PyStr.strip content) ->
      3 <= indicator_lines content ->
      validate_markdown_content content = Accepted (negb (mentions_doc_pattern content))).
Proof.
  rewrite validate_markdown_content_cases.
  assert (looks_like_html content = true <->
          content = "" \/ PyStr.startswith content "<!DOCTYPE" = true
          \/ PyStr.contains "<html" (PyStr.take 100 content) = true) as Hhtml.
  { unfold looks_like_html. rewrite !orb_true_iff, String.eqb_eq. tauto. }
  repeat split.
  - intros [why H]. destruct (looks_like_html content); [tauto|].
    destruct (Nat.ltb_spec (PyStr.len (PyStr.strip content)) 50); [tauto|].
    destruct (Nat.ltb_spec (indicator_lines content) 3); [tauto | discriminate].
  - intros H. destruct (looks_like_html content); [by eexists|].
    destruct (Nat.ltb_spec (PyStr.len (PyStr.strip content)) 50); [by eexists|].
    destruct (Nat.ltb_spec (indicator_lines content) 3); [by eexists|].
    destruct H as [?|[?|[?|[?|?]]]]; try lia;
      assert (false = true) by (apply Hhtml; tauto); discriminate.
  - intros H. by rewrite (proj2 Hhtml) by tauto.
  - intros -> Hlen. pose proof (len_strip content).
    destruct (Nat.ltb_spec (PyStr.len (PyStr.strip content)) 50); [by rewrite Hlen | lia].
  - intros -> H1 H2.
    destruct (Nat.ltb_spec (PyStr.len (PyStr.strip content)) 50); [lia|].
    destruct (Nat.ltb_spec (indicator_lines content) 3); [lia | done].
Qed.

Lemma validate_markdown_content_rejects_exactly_witness :
  validate_markdown_content "<!DOCTYPE html><title>404</title>" = Rejected ReceivedHtml
  /\ validate_markdown_content "twenty bytes of text" = Rejected (ContentTooShort 20)
  /\ validate_markdown_content sample_page = Accepted true.
Proof.
  split; [|split].
  - apply (validate_markdown_content_rejects_exactly "<!DOCTYPE html><title>404</title>").
    reflexivity.
  - apply (validate_markdown_content_rejects_exactly "twenty bytes of text"); reflexivity.
  - apply (validate_markdown_content_rejects_exactly sample_page);
      vm_compute; (reflexivity || lia).
Defined.

(** ** The retrying fetch loops *)

Section fetch_loops.
Implicit Types (get : nat -> get_result) (attempts : list nat).

(** A header the loop can wait on gives a number that [time.sleep]
    waits out. *)
Lemma waitable_sleeps (h : retry_after) :
  waitable h = true ->
  exists wait_time, int_retry_after h = Some wait_time
                    /\ time_sleep h wait_time = None.
Proof.
  destruct h as [|seconds|seconds|]; simpl; try done.
  - intros _. by exists 60%Z.
  - intros [H1%Z.leb_le H2%Z.leb_le]%andb_true_iff. exists seconds. split; [done|].
    unfold time_sleep.
    assert ((seconds <? - SLEEP_MAX)%Z = false) as ->
      by (apply Z.ltb_ge; unfold SLEEP_MAX; lia).
    assert ((SLEEP_MAX <? seconds)%Z = false) as -> by (apply Z.ltb_ge; lia).
    assert ((seconds <? 0)%Z = false) as -> by (apply Z.ltb_ge; lia).
    done.
Qed.

(** [time.sleep] raises, or it waits a number that is not negative. *)
Lemma time_sleep_cases (h : retry_after) (wait_time : Z) :
  (exists e, time_sleep h wait_time = Some e
             /\ (e = SleepOverflow \/ e = RetryAfterError \/ e = SleepRefused))
  \/ (time_sleep h wait_time = None /\ (0 <= wait_time)%Z).
Proof.
  unfold time_sleep. destruct (_ || _); [left; eexists; split; [done | tauto]|].
  destruct (Z.ltb_spec wait_time 0); [left; eexists; split; [done | tauto]|].
  destruct h; (by right) || (left; eexists; split; [done | tauto]).
Qed.

Lemma fetch_markdown_attempts_rate_limited get filename attempts :
  all_rate_limited get attempts ->
  fst (fetch_markdown_attempts get filename attempts) = ReturnNone.
Proof.
  induction attempts as [|attempt rest IH]; intros H; [done|].
  destruct (H attempt) as (r & Hget & Hstatus & Hwait); [by left|].
  cbn [fetch_markdown_attempts]. rewrite Hget, Hstatus. simpl.
  apply waitable_sleeps in Hwait as (wait_time & -> & ->). simpl.
  apply IH. intros a Ha. apply H. by right.
Qed.

Lemma fetch_changelog_attempts_rate_limited get filename attempts :
  all_rate_limited get attempts ->
  fst (fetch_changelog_attempts get filename attempts) = ReturnNone.
Proof.
  induction attempts as [|attempt rest IH]; intros H; [done|].
  destruct (H attempt) as (r & Hget & Hstatus & Hwait); [by left|].
  cbn [fetch_changelog_attempts]. rewrite Hget, Hstatus. simpl.
  apply waitable_sleeps in Hwait as (wait_time & -> & ->). simpl.
  apply IH. intros a Ha. apply H. by right.
Qed.

(** Trailing white space of a longer text hides no more than that of
    its beginning. *)
Lemma len_rstrip_app (h b : string) :
  PyStr.len (PyStr.rstrip h) <= PyStr.len (PyStr.rstrip (h +:+ b)).
Proof.
  unfold PyStr.len. induction h as [|a h IH]; simpl; [lia|].
  destruct (PyStr.rstrip (h +:+ b)) as [|x r], (PyStr.rstrip h) as [|y q];
    simpl in *; try lia.
  destruct (PyStr.is_space a); simpl; lia.
Qed.

Lemma lstrip_app (h b : string) :
  PyStr.lstrip h = h -> h <> "" -> PyStr.lstrip (h +:+ b) = h +:+ b.
Proof.
  destruct h as [|a h]; [done|]. simpl. intros H _.
  destruct (PyStr.is_space a); [|done].
  pose proof (len_lstrip h) as Hlen. rewrite H in Hlen.
  unfold PyStr.len in Hlen. simpl in Hlen. lia.
Qed.

Lemma len_strip_app (h b : string) :
  PyStr.lstrip h = h -> h <> "" ->
  PyStr.len (PyStr.strip h) <= PyStr.len (PyStr.strip (h +:+ b)).
Proof.
  intros H Hne. unfold PyStr.strip. rewrite lstrip_app, H by done.
  apply len_rstrip_app.
Qed.

(** The changelog check never fires: the header alone is long enough. *)
Lemma changelog_long_enough (body : string) :
  (PyStr.len (PyStr.strip (changelog_header +:+ body)) <? 100) = false.
Proof.
  apply Nat.ltb_ge. etrans; [|apply len_strip_app; [reflexivity | discriminate]].
  vm_compute. lia.
Qed.

Lemma fetch_changelog_attempts_no_rejection get filename attempts (bytes : nat) :
  fst (fetch_changelog_attempts get filename attempts) <> Raise (ChangelogTooShort bytes).
Proof.
  induction attempts as [|attempt rest IH]; [done|].
  cbn [fetch_changelog_attempts].
  destruct (get attempt) as [|r].
  - destruct (attempt <? MAX_RETRIES - 1); simpl; [done | discriminate].
  - destruct (status_code r =? 429)%Z.
    + destruct (int_retry_after (retry_after_header r)) as [w|]; [|discriminate].
      destruct (time_sleep_cases (retry_after_header r) w)
        as [(e & He & [He'|[He'|He']])|[He _]]; rewrite He; try subst e;
        (done || discriminate).
    + destruct (raises_for_status r).
      * destruct (attempt <? MAX_RETRIES - 1); simpl; [done | discriminate].
      * rewrite changelog_long_enough. discriminate.
Qed.

End fetch_loops.

(** C2: the code consumes an attempt for every rate-limited response.
    Three 429 answers end the loop before the page that follows is ever
    requested, and one 429 leaves room for two transport failures only,
    where the loop without it survives two and fetches the page. *)
Lemma rate_limit_consumes_attempt :
  let limited := rate_limited RetryAfterAbsent in
  fetch_markdown_content (script [limited; limited; limited] (ok_response sample_page))
                         "platform" None "a.md"
  = (ReturnNone, [RateLimitWait 60; RateLimitWait 60; RateLimitWait 60])
  /\ fetch_markdown_content (script [limited; GetRaises; GetRaises] (ok_response sample_page))
                            "platform" None "a.md"
     = (Raise FetchFailed, [RateLimitWait 60; BackoffWait 4])
  /\ fetch_markdown_content (script [GetRaises; GetRaises] (ok_response sample_page))
                            "platform" None "a.md"
     = (Return ("platform__a.md", sample_page), [BackoffWait 2; BackoffWait 4]).
Proof. repeat split; vm_compute; reflexivity. Qed.

(** C10, as stated, fails when a rate-limited response carries a
    [Retry-After] that [int()] refuses, a negative one, or one that
    [time.sleep] does not wait out: all three attempts receive a 429, yet
    the fetch raises [ValueError], [OverflowError] or [OSError]. *)
Lemma rate_limited_may_raise :
  let get := script [rate_limited RetryAfterAbsent; rate_limited (RetryAfterInt 5);
                     rate_limited RetryAfterMalformed] GetRaises in
  (forall attempt, attempt < MAX_RETRIES ->
     exists r, get attempt = GetReturns r /\ status_code r = 429%Z)
  /\ fst (fetch_markdown_content get "platform" None "a.md") = Raise RetryAfterError
  /\ fst (fetch_changelog get) = Raise RetryAfterError
  /\ fst (fetch_changelog (script [rate_limited (RetryAfterInt (-1))] GetRaises))
     = Raise RetryAfterError
  /\ fst (fetch_markdown_content (fun _ => rate_limited (RetryAfterInt 10000000000))
                                 "platform" None "a.md")
     = Raise SleepOverflow
  /\ fst (fetch_changelog (fun _ => rate_limited (RetryAfterInt 10000000000)))
     = Raise SleepOverflow
  /\ fst (fetch_changelog (fun _ => rate_limited (RetryAfterRefused 9223372036)))
     = Raise SleepRefused.
Proof.
  intros get. split; [|repeat split; vm_compute; reflexivity].
  intros attempt H. unfold MAX_RETRIES in H.
  destruct attempt as [|[|[|?]]]; [by eexists..|lia].
Qed.

(** C10, amended: if every one of the [MAX_RETRIES] attempts receives a
    429 whose [Retry-After] is absent or an integer that [time.sleep]
    waits out (from 0 to [SLEEP_MAX] seconds, and not refused by the
    operating system), both fetch functions fall out of the loop and
    return [None]; the unpacking in [main] then raises [TypeError], not a
    transport failure, and the identity is counted as failed. *)
Theorem all_rate_limited_returns_none
    (get : nat -> get_result) (source : string) (category : option string)
    (page_path : string) :
  all_rate_limited get (seq 0 MAX_RETRIES) ->
  fst (fetch_markdown_content get source category page_path) = ReturnNone
  /\ fst (fetch_changelog get) = ReturnNone
  /\ unpack (fst (fetch_markdown_content get source category page_path)) = inl UnpackNone
  /\ unpack (fst (fetch_changelog get)) = inl UnpackNone
  /\ (forall previous clock st,
        sync_changelog previous {| get := get; now := clock |} st
        = sync_failed "changelog" st).
Proof.
  intros H.
  assert (fst (fetch_markdown_content get source category page_path) = ReturnNone) as H1
    by by apply fetch_markdown_attempts_rate_limited.
  assert (fst (fetch_changelog get) = ReturnNone) as H2
    by by apply fetch_changelog_attempts_rate_limited.
  repeat split; try done.
  - by rewrite H1.
  - by rewrite H2.
  - intros previous clock st. unfold sync_changelog. simpl. by rewrite H2.
Qed.

Lemma all_rate_limited_returns_none_witness :
  fst (fetch_markdown_content (fun _ => rate_limited (RetryAfterInt 1)) "code" (Some "ref") "hooks")
  = ReturnNone.
Proof.
  apply (all_rate_limited_returns_none
           (fun _ => rate_limited (RetryAfterInt 1)) "code" (Some "ref") "hooks").
  unfold all_rate_limited. intros attempt _. eexists. repeat split; reflexivity.
Defined.

(** C3, as stated, fails: a response that the validator rejects for a
    page is accepted for the changelog, under a filename that is not
    computed by the normaliser. *)
Lemma changelog_skips_validator :
  let get := fun _ : nat => ok_response "<!DOCTYPE html><title>Not found</title>" in
  fst (fetch_markdown_content get "platform" None "CHANGELOG.md")
  = Raise (ValidationError ReceivedHtml)
  /\ fst (fetch_changelog get)
     = Return ("changelog.md",
               changelog_header +:+ "<!DOCTYPE html><title>Not found</title>")
  /\ url_to_safe_filename "CHANGELOG.md" "platform" None <> "changelog.md"
  /\ 100 <= PyStr.len (PyStr.strip html_page)
  /\ fst (fetch_markdown_content (fun _ => ok_response html_page)
                                 "platform" None "CHANGELOG.md")
     = Raise (ValidationError ReceivedHtml)
  /\ fst (fetch_changelog (fun _ => ok_response html_page))
     = Return ("changelog.md", changelog_header +:+ html_page).
Proof.
  split; [vm_compute; reflexivity|]. split; [vm_compute; reflexivity|].
  split; [discriminate|]. split; [vm_compute; lia|].
  split; vm_compute; reflexivity.
Qed.

Section changelog_attempts.
Implicit Types (get : nat -> get_result) (attempts : list nat).

(** The loop of [fetch_changelog] returns the first answer that is not
    retried, when that is a success: the header and the fetched text. *)
Lemma fetch_changelog_attempts_first_success get filename
    (before : list nat) (attempt : nat) (rest : list nat) (r : response) :
  (forall earlier, In earlier before ->
     earlier < MAX_RETRIES - 1 /\ retried (get earlier) = true) ->
  get attempt = GetReturns r -> status_code r <> 429%Z -> raises_for_status r = false ->
  fst (fetch_changelog_attempts get filename (before ++ attempt :: rest))
  = Return (filename, changelog_header +:+ text r).
Proof.
  intros Hbefore Hget Hstatus Hraise.
  induction before as [|a before IH].
  - cbn [app fetch_changelog_attempts]. rewrite Hget.
    apply Z.eqb_neq in Hstatus. rewrite Hstatus, Hraise.
    by rewrite changelog_long_enough.
  - assert (fst (fetch_changelog_attempts get filename (before ++ attempt :: rest))
            = Return (filename, changelog_header +:+ text r)) as IH'
      by (apply IH; intros e He; apply Hbefore; by right).
    destruct (Hbefore a) as [Ha Hr]; [by left|].
    apply Nat.ltb_lt in Ha.
    change ((a :: before) ++ attempt :: rest) with (a :: (before ++ attempt :: rest)).
    cbn [fetch_changelog_attempts]. rewrite Ha.
    destruct (get a) as [|r']; [done|]. cbn [retried] in Hr.
    destruct (status_code r' =? 429)%Z.
    + apply waitable_sleeps in Hr as (wait_time & -> & ->). done.
    + by rewrite Hr.
Qed.

End changelog_attempts.

(** C3, amended: the changelog goes through the same compare, write and
    record steps as every page, but its filename is the constant
    [changelog.md], which no call of the normaliser produces, and its
    content is the fixed header followed by the fetched text and is not
    passed to the validator: the first answer that is not retried, if it
    is neither an HTTP error nor shorter than 100 characters once
    stripped, is synced whatever the validator would say about it. *)
Theorem changelog_is_synced_unvalidated
    (get : nat -> get_result) (attempt : nat) (r : response) :
  attempt < MAX_RETRIES ->
  (forall earlier, earlier < attempt -> retried (get earlier) = true) ->
  get attempt = GetReturns r -> status_code r <> 429%Z -> raises_for_status r = false ->
  100 <= PyStr.len (PyStr.strip (text r)) ->
  fst (fetch_changelog get) = Return ("changelog.md", changelog_header +:+ text r)
  /\ (forall p s c, url_to_safe_filename p s c <> "changelog.md")
  /\ (forall previous clock st,
        sync_changelog previous {| get := get; now := clock |} st
        = sync_content previous clock "changelog.md" (changelog_header +:+ text r)
                       changelog_entry st).
Proof.
  intros Hattempt Hearlier Hget Hstatus Hraise _.
  assert (fst (fetch_changelog get)
          = Return ("changelog.md", changelog_header +:+ text r)) as H.
  { unfold fetch_changelog.
    assert (seq 0 MAX_RETRIES
            = seq 0 attempt ++ attempt :: seq (S attempt) (MAX_RETRIES - S attempt)) as ->.
    { unfold MAX_RETRIES in *. destruct attempt as [|[|[|?]]]; (reflexivity || lia). }
    apply fetch_changelog_attempts_first_success; try done.
    intros earlier [_ He]%in_seq. split; [unfold MAX_RETRIES in *; lia|].
    apply Hearlier. lia. }
  split; [done|]. split; [apply url_to_safe_filename_not_changelog|].
  intros previous clock st. unfold sync_changelog. simpl. by rewrite H.
Qed.

Lemma changelog_is_synced_unvalidated_witness :
  validate_markdown_content html_page = Rejected ReceivedHtml
  /\ fst (fetch_changelog (script [GetRaises; rate_limited (RetryAfterInt 1)]
                                  (ok_response html_page)))
     = Return ("changelog.md", changelog_header +:+ html_page).
Proof.
  split; [vm_compute; reflexivity|].
  destruct (changelog_is_synced_unvalidated
              (script [GetRaises; rate_limited (RetryAfterInt 1)] (ok_response html_page))
              2
              {| status_code := 200; retry_after_header := RetryAfterAbsent;
                 text := html_page |})
    as [H _]; [unfold MAX_RETRIES; lia | | reflexivity | discriminate | reflexivity
              | vm_compute; lia | exact H].
  intros [|[|?]] He; [reflexivity | reflexivity | lia].
Defined.

(** ** Reconciliation *)

Section cleanup.
Implicit Types (dir : gmap string file) (current : gset string) (m : manifest).

(** What the loop of [cleanup_old_files] leaves of each file. *)
Lemma cleanup_old_files_lookup dir current m (filename : string) :
  cleanup_old_files dir current m !! filename
  = if decide (filename ∈ dom (files m) ∖ current /\ filename <> MANIFEST_FILE)
    then None else dir !! filename.
Proof.
  unfold cleanup_old_files.
  generalize (dom (files m) ∖ current). intros remove.
  pose (P := fun (r : gmap string file) (X : gset string) =>
               r !! filename
               = if decide (filename ∈ X /\ filename <> MANIFEST_FILE)
                 then None else dir !! filename).
  change (P (set_fold (fun f d => if decide (f = MANIFEST_FILE) then d else delete f d)
                      dir remove) remove).
  apply set_fold_ind_L; unfold P; clear P.
  - rewrite decide_False; [done|]. intros [H _]. by apply not_elem_of_empty in H.
  - intros x X r Hx IH.
    assert (filename ∈ {[x]} ∪ X <-> filename = x \/ filename ∈ X) as Hin
      by (rewrite elem_of_union, elem_of_singleton; tauto).
    destruct (decide (x = MANIFEST_FILE)) as [->|Hm].
    + rewrite IH. apply decide_ext. rewrite Hin. tauto.
    + destruct (decide (x = filename)) as [->|Hne].
      * rewrite lookup_delete_eq, decide_True; [done | rewrite Hin; tauto].
      * rewrite lookup_delete_ne, IH by done. apply decide_ext. rewrite Hin.
        intuition congruence.
Qed.

End cleanup.

(** C6: after the identities are processed, every filename of the
    previous manifest that was not fetched in this run is gone from the
    directory, the manifest file excepted, which the reconciliation never
    deletes; files outside the previous manifest and fetched files are
    left as they are. This holds for [cleanup_old_files] on every
    directory, manifest and set of fetched filenames, and for the
    directory [main] leaves behind. *)
Theorem cleanup_old_files_prunes
    (dir : gmap string file) (current : gset string) (m : manifest) (filename : string) :
  (filename ∈ dom (files m) -> filename ∉ current -> filename <> MANIFEST_FILE ->
   cleanup_old_files dir current m !! filename = None)
  /\ cleanup_old_files dir current m !! MANIFEST_FILE = dir !! MANIFEST_FILE
  /\ (filename ∉ dom (files m) \/ filename ∈ current ->
      cleanup_old_files dir current m !! filename = dir !! filename)
  /\ (forall w,
        filename ∈ dom (files (load_manifest dir)) ->
        filename ∉ fetched_files (local_state (main dir w)) ->
        filename <> MANIFEST_FILE ->
        final_dir (main dir w) !! filename = None)
  /\ (forall w, is_Some (final_dir (main dir w) !! MANIFEST_FILE)).
Proof.
  repeat split.
  - intros H1 H2 H3. rewrite cleanup_old_files_lookup, decide_True; [done|].
    by rewrite elem_of_difference.
  - rewrite cleanup_old_files_lookup, decide_False; [done | tauto].
  - intros H. rewrite cleanup_old_files_lookup, decide_False; [done|].
    rewrite elem_of_difference. tauto.
  - intros w H1 H2 H3. unfold main, save_manifest. cbn [final_dir].
    rewrite lookup_insert_ne by done.
    rewrite cleanup_old_files_lookup, decide_True; [done|].
    by rewrite elem_of_difference.
  - intros w. unfold main, save_manifest. cbn [final_dir].
    rewrite lookup_insert_eq. by eexists.
Qed.

Lemma cleanup_old_files_prunes_witness :
  let m := {| files := {[ "platform__gone.md" := changelog_entry "00" "2025" ]};
              manifest_last_updated := None; metadata := None |} in
  let dir : gmap string file := {[ "platform__gone.md" := TextFile [35%Z] ]} in
  cleanup_old_files dir ∅ m !! "platform__gone.md" = None.
Proof.
  intros m dir.
  destruct (cleanup_old_files_prunes dir ∅ m "platform__gone.md") as [H _].
  apply H.
  - apply elem_of_dom. eexists. apply lookup_singleton_eq.
  - apply not_elem_of_empty.
  - discriminate.
Defined.

(** ** Counting and the exit code *)

Section counting.
Implicit Types (previous : manifest) (st : run).

Lemma successful_sync_content previous clock filename content make_entry st :
  successful (sync_content previous clock filename content make_entry st)
  = S (successful st).
Proof.
  unfold sync_content, save_markdown_file.
  by destruct (content_has_changed _ _).
Qed.

Lemma successful_sync_code_doc previous st doc :
  successful (sync_code_doc previous st doc)
  = successful st + (if code_doc_fetched doc then 1 else 0).
Proof.
  unfold sync_code_doc, code_doc_fetched, fetched, unpack.
  destruct (fst (fetch_markdown_content _ _ _ _)) as [[filename content]| |e].
  - rewrite successful_sync_content. lia.
  - simpl. lia.
  - simpl. lia.
Qed.

Lemma successful_sync_platform_doc previous st doc :
  successful (sync_platform_doc previous st doc)
  = successful st + (if platform_doc_fetched doc then 1 else 0).
Proof.
  unfold sync_platform_doc, platform_doc_fetched, fetched, unpack.
  destruct (fst (fetch_markdown_content _ _ _ _)) as [[filename content]| |e].
  - rewrite successful_sync_content. lia.
  - simpl. lia.
  - simpl. lia.
Qed.

Lemma successful_code_loop previous docs st :
  successful (fold_left (sync_code_doc previous) docs st)
  = successful st + length (List.filter code_doc_fetched docs).
Proof.
  revert st. induction docs as [|doc docs IH]; intros st; simpl; [lia|].
  rewrite IH, successful_sync_code_doc. destruct (code_doc_fetched doc); simpl; lia.
Qed.

Lemma successful_platform_loop previous docs st :
  successful (fold_left (sync_platform_doc previous) docs st)
  = successful st + length (List.filter platform_doc_fetched docs).
Proof.
  revert st. induction docs as [|doc docs IH]; intros st; simpl; [lia|].
  rewrite IH, successful_sync_platform_doc. destruct (platform_doc_fetched doc); simpl; lia.
Qed.

Lemma successful_sync_all previous w dir :
  successful (sync_all previous w dir) = synced_count w.
Proof.
  unfold sync_all, synced_count, sync_changelog, fetched, unpack.
  set (st2 := sync_platform_source _ _ _).
  assert (successful st2
          = length (List.filter code_doc_fetched (default [] (code_discovery w)))
            + length (List.filter platform_doc_fetched
                                  (default [] (platform_discovery w)))) as H2.
  { unfold st2, sync_platform_source, sync_code_source.
    destruct (platform_discovery w) as [pdocs|], (code_discovery w) as [cdocs|]; simpl;
      rewrite ?successful_platform_loop; simpl;
      rewrite ?successful_code_loop; simpl; lia. }
  destruct (fst (fetch_changelog _)) as [[filename content]| |e].
  - rewrite successful_sync_content. lia.
  - simpl. lia.
  - simpl. lia.
Qed.

(** A failed changelog always leaves a failed page behind. *)
Lemma failed_changelog_is_reported previous e st :
  fetched (fetch_changelog (get e)) = false ->
  failed_pages (sync_changelog previous e st) <> [].
Proof.
  unfold sync_changelog, fetched, unpack.
  destruct (fst (fetch_changelog _)) as [[filename content]| |x]; [done|..];
    intros _; simpl; by destruct (failed_pages st).
Qed.

End counting.

(** C4: the counter [successful] is the number of identities of the three
    sources that were synced, and the process exits with code 1 exactly
    when that number is zero; with at least one synced identity it exits
    with code 0, whatever else failed. *)
Theorem exit_code_zero_success (dir : gmap string file) (w : world) :
  successful (local_state (main dir w)) = synced_count w
  /\ exit_code (main dir w) = (if (synced_count w =? 0)%nat then 1%Z else 0%Z)
  /\ (exit_code (main dir w) = 1%Z <-> synced_count w = 0).
Proof.
  assert (exit_code (main dir w) = (if (synced_count w =? 0)%nat then 1%Z else 0%Z)) as H.
  { unfold main. cbn [exit_code]. rewrite successful_sync_all.
    destruct (Nat.eqb_spec (synced_count w) 0) as [H0|H0].
    - pose proof (failed_changelog_is_reported (load_manifest dir) (changelog_env w)) as Hf.
      unfold sync_all. unfold synced_count in H0.
      destruct (fetched (fetch_changelog (get (changelog_env w)))); [lia|].
      match goal with |- context [sync_changelog _ _ ?st] => specialize (Hf st eq_refl) end.
      by destruct (failed_pages _).
    - by destruct (failed_pages _). }
  split; [apply successful_sync_all|]. split; [done|]. rewrite H.
  destruct (Nat.eqb_spec (synced_count w) 0); split; (done || lia).
Qed.

Example exit_code_all_failed :
  let r := main ∅ (unreachable_world "2025-01-01") in
  exit_code r = 1%Z /\ failed_pages (local_state r) = ["changelog"].
Proof. vm_compute. done. Qed.

Example exit_code_partial_failure :
  let r := main ∅ (colliding_world "2025-01-01") in
  exit_code r = 0%Z /\ successful (local_state r) = 2
  /\ failed_pages (local_state r) = ["changelog"].
Proof. vm_compute. done. Qed.

(** ** Runs as sequences of synced identities *)

Section items.
Implicit Types (previous : manifest) (st : run) (it : item) (its : list item).

Lemma core_sync_content previous clock filename content mk st st' :
  core st = core st' ->
  core (sync_content previous clock filename content mk st)
  = core (sync_content previous clock filename content mk st').
Proof.
  unfold core, sync_content, save_markdown_file. intros [= H1 H2 H3 H4].
  destruct (content_has_changed _ _); simpl; by rewrite H1, H2, H3, H4.
Qed.

Lemma sync_code_doc_item previous st doc :
  sync_code_doc previous st doc
  = match code_item doc with
    | Some it => sync_item previous st it
    | None => sync_failed ("code:" +:+ code_page_name doc) st
    end.
Proof.
  unfold sync_code_doc, code_item.
  by destruct (unpack _) as [e|[filename content]].
Qed.

Lemma sync_platform_doc_item previous st doc :
  sync_platform_doc previous st doc
  = match platform_item doc with
    | Some it => sync_item previous st it
    | None => sync_failed ("platform:" +:+ platform_path doc) st
    end.
Proof.
  unfold sync_platform_doc, platform_item.
  by destruct (unpack _) as [e|[filename content]].
Qed.

Lemma omap_cons_item {A} (f : A -> option item) (x : A) (l : list A) :
  omap f (x :: l) = match f x with Some y => y :: omap f l | None => omap f l end.
Proof. reflexivity. Qed.

Lemma core_code_loop previous docs st st' :
  core st = core st' ->
  core (fold_left (sync_code_doc previous) docs st)
  = core (fold_left (sync_item previous) (omap code_item docs) st').
Proof.
  revert st st'. induction docs as [|doc docs IH]; intros st st' H; [done|].
  rewrite omap_cons_item. cbn [fold_left]. rewrite sync_code_doc_item.
  destruct (code_item doc) as [it|]; cbn [fold_left].
  - by apply IH, core_sync_content.
  - by apply IH.
Qed.

Lemma core_platform_loop previous docs st st' :
  core st = core st' ->
  core (fold_left (sync_platform_doc previous) docs st)
  = core (fold_left (sync_item previous) (omap platform_item docs) st').
Proof.
  revert st st'. induction docs as [|doc docs IH]; intros st st' H; [done|].
  rewrite omap_cons_item. cbn [fold_left]. rewrite sync_platform_doc_item.
  destruct (platform_item doc) as [it|]; cbn [fold_left].
  - by apply IH, core_sync_content.
  - by apply IH.
Qed.

(** The files, the entries and the log of a run are those of its
    synced identities, processed in order. *)
Lemma core_sync_all previous w dir :
  core (sync_all previous w dir)
  = core (fold_left (sync_item previous) (items w) (start dir)).
Proof.
  unfold sync_all, items. rewrite !fold_left_app.
  set (st0 := start dir).
  assert (core (sync_code_source previous (code_discovery w) st0)
          = core (fold_left (sync_item previous)
                            (omap code_item (default [] (code_discovery w))) st0)) as H1.
  { unfold sync_code_source. destruct (code_discovery w) as [docs|]; [|done].
    by apply core_code_loop. }
  revert H1. generalize (sync_code_source previous (code_discovery w) st0).
  generalize (fold_left (sync_item previous)
                        (omap code_item (default [] (code_discovery w))) st0).
  intros st1' st1 H1.
  assert (core (sync_platform_source previous (platform_discovery w) st1)
          = core (fold_left (sync_item previous)
                            (omap platform_item (default [] (platform_discovery w)))
                            st1')) as H2.
  { unfold sync_platform_source. destruct (platform_discovery w) as [docs|]; [|done].
    by apply core_platform_loop. }
  revert H2. generalize (sync_platform_source previous (platform_discovery w) st1).
  generalize (fold_left (sync_item previous)
                        (omap platform_item (default [] (platform_discovery w))) st1').
  intros st2' st2 H2.
  unfold sync_changelog, changelog_item.
  destruct (unpack _) as [e|[filename content]]; simpl; [done|].
  by apply core_sync_content.
Qed.

Lemma hash_make_entry (o : origin) (h u : string) :
  hash (make_entry o h u) = Some h /\ last_updated (make_entry o h u) = Some u.
Proof. by destruct o. Qed.

(** One synced identity: its entry always carries the hash of its
    content, and the file is written only when the hash is new. *)
Lemma sync_item_core previous st it :
  core (sync_item previous st it)
  = ({[item_filename it]} ∪ fetched_files st,
     <[item_filename it :=
         make_entry (item_origin it) (sha256_hex (item_content it)) (stamp previous it)]>
       (new_files st),
     (if content_has_changed (item_content it)
                             (default "" (files previous !! item_filename it ≫= hash))
      then <[item_filename it := TextFile (utf8_encode (item_content it))]> (docs_dir st)
      else docs_dir st),
     (if content_has_changed (item_content it)
                             (default "" (files previous !! item_filename it ≫= hash))
      then saved st ++ [item_filename it] else saved st)).
Proof.
  unfold core, sync_item, sync_content, stamp, save_markdown_file.
  destruct (content_has_changed _ _) eqn:Hc; simpl; [done|].
  unfold content_has_changed in Hc. apply negb_false_iff, String.eqb_eq in Hc.
  by rewrite <- Hc.
Qed.

End items.

(** ** Filenames of the synced identities *)

Section item_filenames.
Implicit Types (get : nat -> get_result) (attempts : list nat).

Lemma fetch_markdown_attempts_filename get filename attempts f c :
  fst (fetch_markdown_attempts get filename attempts) = Return (f, c) -> f = filename.
Proof.
  induction attempts as [|attempt rest IH]; [done|].
  cbn [fetch_markdown_attempts].
  destruct (get attempt) as [|r].
  - destruct (attempt <? MAX_RETRIES - 1); simpl; [done | discriminate].
  - destruct (status_code r =? 429)%Z.
    + destruct (int_retry_after (retry_after_header r)) as [w|]; [|discriminate].
      destruct (time_sleep _ w); [discriminate | done].
    + destruct (raises_for_status r).
      * destruct (attempt <? MAX_RETRIES - 1); simpl; [done | discriminate].
      * destruct (validate_markdown_content (text r)); simpl; congruence.
Qed.

Lemma fetch_changelog_attempts_filename get filename attempts f c :
  fst (fetch_changelog_attempts get filename attempts) = Return (f, c) -> f = filename.
Proof.
  induction attempts as [|attempt rest IH]; [done|].
  cbn [fetch_changelog_attempts].
  destruct (get attempt) as [|r].
  - destruct (attempt <? MAX_RETRIES - 1); simpl; [done | discriminate].
  - destruct (status_code r =? 429)%Z.
    + destruct (int_retry_after (retry_after_header r)) as [w|]; [|discriminate].
      destruct (time_sleep _ w); [discriminate | done].
    + destruct (raises_for_status r).
      * destruct (attempt <? MAX_RETRIES - 1); simpl; [done | discriminate].
      * destruct (_ <? 100); simpl; congruence.
Qed.

(** The fetch loops read the transport at the attempt numbers only. *)
Lemma fetch_markdown_attempts_ext get get' filename attempts :
  (forall attempt, get attempt = get' attempt) ->
  fetch_markdown_attempts get filename attempts
  = fetch_markdown_attempts get' filename attempts.
Proof.
  intros H. induction attempts as [|attempt rest IH]; [done|].
  cbn [fetch_markdown_attempts]. by rewrite IH, H.
Qed.

Lemma fetch_changelog_attempts_ext get get' filename attempts :
  (forall attempt, get attempt = get' attempt) ->
  fetch_changelog_attempts get filename attempts
  = fetch_changelog_attempts get' filename attempts.
Proof.
  intros H. induction attempts as [|attempt rest IH]; [done|].
  cbn [fetch_changelog_attempts]. by rewrite IH, H.
Qed.

Lemma code_item_filename doc it :
  code_item doc = Some it -> item_filename it = code_filename doc.
Proof.
  unfold code_item, unpack, fetch_markdown_content, code_filename.
  destruct (fst _) as [[f c]| |e] eqn:H; [|done..].
  intros [= <-]. by apply fetch_markdown_attempts_filename in H.
Qed.

Lemma platform_item_filename doc it :
  platform_item doc = Some it -> item_filename it = platform_filename doc.
Proof.
  unfold platform_item, unpack, fetch_markdown_content, platform_filename.
  destruct (fst _) as [[f c]| |e] eqn:H; [|done..].
  intros [= <-]. by apply fetch_markdown_attempts_filename in H.
Qed.

Lemma changelog_item_filename e it :
  changelog_item e = Some it -> item_filename it = "changelog.md".
Proof.
  unfold changelog_item, unpack, fetch_changelog.
  destruct (fst _) as [[f c]| |x] eqn:H; [|done..].
  intros [= <-]. by apply fetch_changelog_attempts_filename in H.
Qed.

Lemma omap_filenames_sublist {A} (f : A -> option item) (name : A -> string)
    (docs : list A) :
  (forall doc it, f doc = Some it -> item_filename it = name doc) ->
  (item_filename <$> omap f docs) `sublist_of` (name <$> docs).
Proof.
  intros H. induction docs as [|doc docs IH]; [constructor|].
  rewrite omap_cons_item, fmap_cons.
  destruct (f doc) as [it|] eqn:Hf.
  - rewrite fmap_cons, (H _ _ Hf). by constructor.
  - by constructor.
Qed.

Lemma filenames_not_changelog w : "changelog.md" ∉ filenames w.
Proof.
  unfold filenames. rewrite elem_of_app, !list_elem_of_fmap.
  intros [(doc & H & _)|(doc & H & _)]; symmetry in H;
    by apply url_to_safe_filename_not_changelog in H.
Qed.

(** Distinct filenames of the discovered pages are distinct filenames
    of everything a run syncs. *)
Lemma items_NoDup w :
  NoDup (filenames w) -> NoDup (item_filename <$> items w).
Proof.
  intros H.
  apply (sublist_NoDup _ (filenames w ++ ["changelog.md"])).
  - apply NoDup_app. split; [done|]. split; [|apply NoDup_singleton].
    intros x Hx ->%list_elem_of_singleton. by apply filenames_not_changelog in Hx.
  - unfold items, filenames. rewrite !fmap_app, <- app_assoc.
    apply sublist_app; [|apply sublist_app].
    + apply omap_filenames_sublist, code_item_filename.
    + apply omap_filenames_sublist, platform_item_filename.
    + destruct (changelog_item _) as [it|] eqn:Hc; simpl.
      * rewrite (changelog_item_filename _ _ Hc). reflexivity.
      * apply sublist_nil_l.
Qed.

Lemma items_not_manifest w it : it ∈ items w -> item_filename it <> MANIFEST_FILE.
Proof.
  unfold items. rewrite !elem_of_app, !list_elem_of_omap.
  intros [(doc & _ & H)|[(doc & _ & H)|H]].
  - rewrite (code_item_filename _ _ H). apply url_to_safe_filename_not_manifest.
  - rewrite (platform_item_filename _ _ H). apply url_to_safe_filename_not_manifest.
  - destruct (changelog_item _) as [it'|] eqn:Hc; simpl in H.
    + apply list_elem_of_singleton in H as ->.
      by rewrite (changelog_item_filename _ _ Hc).
    + by apply elem_of_nil in H.
Qed.

Lemma same_code_item d d' :
  same_code_doc d d' -> option_Forall2 same_item (code_item d) (code_item d').
Proof.
  intros (Hu & Hp & Hc & He). unfold code_item, fetch_markdown_content.
  rewrite Hp, Hc, (fetch_markdown_attempts_ext _ _ _ _ He).
  destruct (unpack _) as [e|[f c]]; constructor.
  repeat split. intros h u. simpl. unfold code_entry. by rewrite Hu, Hc.
Qed.

Lemma same_platform_item d d' :
  same_platform_doc d d' -> option_Forall2 same_item (platform_item d) (platform_item d').
Proof.
  intros (Hu & Hp & He). unfold platform_item, fetch_markdown_content.
  rewrite Hp, (fetch_markdown_attempts_ext _ _ _ _ He).
  destruct (unpack _) as [e|[f c]]; constructor.
  repeat split. intros h u. simpl. unfold platform_entry. by rewrite Hu.
Qed.

Lemma same_changelog_item e e' :
  same_env e e' -> option_Forall2 same_item (changelog_item e) (changelog_item e').
Proof.
  intros He. unfold changelog_item, fetch_changelog.
  rewrite (fetch_changelog_attempts_ext _ _ _ _ He).
  destruct (unpack _) as [x|[f c]]; by constructor.
Qed.

Lemma same_omap {A} (R : A -> A -> Prop) (f : A -> option item) (l l' : list A) :
  (forall x y, R x y -> option_Forall2 same_item (f x) (f y)) ->
  Forall2 R l l' -> Forall2 same_item (omap f l) (omap f l').
Proof.
  intros Hf. induction 1 as [|x y l l' Hxy Hl IH]; [constructor|].
  rewrite !omap_cons_item. destruct (Hf x y Hxy); [by constructor | done].
Qed.

(** The same remote side gives the same synced identities. *)
Lemma same_items w w' : same_remote w w' -> Forall2 same_item (items w) (items w').
Proof.
  intros (Hc & Hp & He). unfold items. apply Forall2_app; [|apply Forall2_app].
  - destruct Hc as [l l' H|]; simpl; [|constructor].
    apply (same_omap same_code_doc); [apply same_code_item | done].
  - destruct Hp as [l l' H|]; simpl; [|constructor].
    apply (same_omap same_platform_doc); [apply same_platform_item | done].
  - destruct (same_changelog_item _ _ He) as [x y H|]; simpl.
    + constructor; [done | constructor].
    + constructor.
Qed.

End item_filenames.

(** ** Convergence *)

#[local] Arguments sha256_hex : simpl never.
#[local] Arguments utf8_encode : simpl never.
#[local] Arguments Sha256.hexdigest : simpl never.

Section convergence.
Implicit Types (previous : manifest) (st : run) (it : item) (its : list item).

Lemma new_files_sync_item previous st it :
  new_files (sync_item previous st it)
  = <[item_filename it :=
        make_entry (item_origin it) (sha256_hex (item_content it)) (stamp previous it)]>
      (new_files st).
Proof. pose proof (sync_item_core previous st it) as H. by injection H. Qed.

Lemma fetched_files_sync_item previous st it :
  fetched_files (sync_item previous st it) = {[item_filename it]} ∪ fetched_files st.
Proof. pose proof (sync_item_core previous st it) as H. by injection H. Qed.

(** Entries of filenames the items do not name are left alone. *)
Lemma new_files_other previous its st (k : string) :
  k ∉ item_filename <$> its ->
  new_files (fold_left (sync_item previous) its st) !! k = new_files st !! k.
Proof.
  revert st. induction its as [|it its IH]; intros st Hk; [done|].
  rewrite fmap_cons, not_elem_of_cons in Hk. destruct Hk as [Hne Hk].
  cbn [fold_left]. rewrite IH, new_files_sync_item by done.
  by rewrite lookup_insert_ne.
Qed.

(** With distinct filenames, the entry of every item survives the run,
    and it carries the hash of the item's content. *)
Lemma new_files_item previous its st it :
  NoDup (item_filename <$> its) -> it ∈ its ->
  new_files (fold_left (sync_item previous) its st) !! item_filename it
  = Some (make_entry (item_origin it) (sha256_hex (item_content it)) (stamp previous it)).
Proof.
  revert st. induction its as [|it0 its IH]; intros st Hn Hin.
  - by apply elem_of_nil in Hin.
  - rewrite fmap_cons, NoDup_cons in Hn. destruct Hn as [Hfresh Hn].
    cbn [fold_left]. apply elem_of_cons in Hin as [->|Hin].
    + rewrite new_files_other, new_files_sync_item by done. apply lookup_insert_eq.
    + by apply IH.
Qed.

(** An item whose entry of the previous manifest carries the hash of
    its content: nothing is written and the entry is carried over. *)
Lemma sync_item_unchanged previous st it (o : origin) (u : string) :
  files previous !! item_filename it
  = Some (make_entry o (sha256_hex (item_content it)) u) ->
  (forall h t, make_entry o h t = make_entry (item_origin it) h t) ->
  core (sync_item previous st it)
  = ({[item_filename it]} ∪ fetched_files st,
     <[item_filename it := make_entry o (sha256_hex (item_content it)) u]> (new_files st),
     docs_dir st, saved st).
Proof.
  intros Hold Hsame. rewrite sync_item_core. unfold stamp. rewrite Hold.
  cbn [mbind option_bind default].
  destruct (hash_make_entry o (sha256_hex (item_content it)) u) as [Hh Hu].
  rewrite Hh, Hu. cbn [default from_option]. unfold id.
  assert (content_has_changed (item_content it) (sha256_hex (item_content it)) = false)
    as ->.
  { unfold content_has_changed. generalize (sha256_hex (item_content it)). intros h.
    by rewrite String.eqb_refl. }
  by rewrite Hsame.
Qed.

(** A rerun against the manifest [F] that the same items produced. *)
Lemma rerun_items previous (F : gmap string entry) its its' st :
  files previous = F ->
  Forall2 same_item its its' ->
  (forall it, it ∈ its ->
     exists u, F !! item_filename it
               = Some (make_entry (item_origin it) (sha256_hex (item_content it)) u)) ->
  saved (fold_left (sync_item previous) its' st) = saved st
  /\ docs_dir (fold_left (sync_item previous) its' st) = docs_dir st
  /\ forall k, new_files (fold_left (sync_item previous) its' st) !! k
               = if decide (k ∈ item_filename <$> its') then F !! k
                 else new_files st !! k.
Proof.
  intros HF Hsame. revert st.
  induction Hsame as [|it it' its its' (Hf & Hc & He) Hrest IH]; intros st Hin.
  - split; [done|]. split; [done|]. intros k.
    rewrite decide_False; [done | apply not_elem_of_nil].
  - destruct (Hin it) as [u Hu]; [by left|].
    assert (core (sync_item previous st it')
            = ({[item_filename it']} ∪ fetched_files st,
               <[item_filename it' :=
                   make_entry (item_origin it) (sha256_hex (item_content it')) u]>
                 (new_files st),
               docs_dir st, saved st)) as Hstep.
    { apply sync_item_unchanged; [|done]. by rewrite HF, <- Hf, <- Hc. }
    unfold core in Hstep. injection Hstep as _ Hnew Hdir Hsaved.
    cbn [fold_left].
    destruct (IH (sync_item previous st it')) as (IH1 & IH2 & IH3).
    { intros x Hx. apply Hin. by right. }
    rewrite IH1, IH2, Hdir, Hsaved. split; [done|]. split; [done|].
    intros k. rewrite IH3, Hnew.
    rewrite fmap_cons.
    destruct (decide (k ∈ item_filename <$> its')) as [Hk|Hk].
    + rewrite decide_True; [done | by right].
    + destruct (decide (k = item_filename it')) as [->|Hne].
      * rewrite lookup_insert_eq, decide_True by by left.
        by rewrite <- Hf, Hu, Hc.
      * rewrite lookup_insert_ne by done. rewrite decide_False; [done|].
        rewrite not_elem_of_cons. tauto.
Qed.

Lemma same_items_filenames its its' :
  Forall2 same_item its its' -> item_filename <$> its = item_filename <$> its'.
Proof.
  induction 1 as [|it it' its its' (Hf & _) _ IH]; [done|].
  by rewrite !fmap_cons, Hf, IH.
Qed.

Lemma saved_sync_all previous w dir :
  saved (sync_all previous w dir)
  = saved (fold_left (sync_item previous) (items w) (start dir)).
Proof. pose proof (core_sync_all previous w dir) as H. by injection H. Qed.

Lemma new_files_sync_all previous w dir :
  new_files (sync_all previous w dir)
  = new_files (fold_left (sync_item previous) (items w) (start dir)).
Proof. pose proof (core_sync_all previous w dir) as H. by injection H. Qed.

Lemma docs_dir_sync_all previous w dir :
  docs_dir (sync_all previous w dir)
  = docs_dir (fold_left (sync_item previous) (items w) (start dir)).
Proof. pose proof (core_sync_all previous w dir) as H. by injection H. Qed.

Lemma fetched_files_sync_all previous w dir :
  fetched_files (sync_all previous w dir)
  = fetched_files (fold_left (sync_item previous) (items w) (start dir)).
Proof. pose proof (core_sync_all previous w dir) as H. by injection H. Qed.

(** The manifest a run leaves on disk is the one the next run loads. *)
Lemma load_manifest_main dir w :
  files (load_manifest (final_dir (main dir w))) = files (written (main dir w)).
Proof.
  unfold main, load_manifest, save_manifest. cbn [final_dir written].
  by rewrite lookup_insert_eq.
Qed.

Lemma saved_main dir w :
  saved (local_state (main dir w))
  = saved (fold_left (sync_item (load_manifest dir)) (items w) (start dir)).
Proof. unfold main. cbn [local_state]. apply saved_sync_all. Qed.

Lemma files_written_main dir w :
  files (written (main dir w))
  = new_files (fold_left (sync_item (load_manifest dir)) (items w) (start dir)).
Proof. unfold main. cbn [written files]. apply new_files_sync_all. Qed.

(** Two runs over the same remote side with distinct filenames: the
    second one writes nothing and reproduces the entries of the first. *)
Lemma second_run_converges dir w w' :
  NoDup (filenames w) -> same_remote w w' ->
  saved (local_state (main (final_dir (main dir w)) w')) = []
  /\ files (written (main (final_dir (main dir w)) w')) = files (written (main dir w)).
Proof.
  intros Hn Hsame.
  pose proof (load_manifest_main dir w) as Hload.
  pose proof (files_written_main dir w) as HF.
  rewrite saved_main, (files_written_main (final_dir (main dir w))).
  revert Hload HF.
  generalize (final_dir (main dir w)) (files (written (main dir w))).
  intros dir1 F Hload HF.
  destruct (rerun_items (load_manifest dir1) F (items w) (items w') (start dir1))
    as (H1 & _ & H3); [done | by apply same_items | |].
  { intros it Hit. eexists. rewrite HF. by apply new_files_item; [apply items_NoDup|]. }
  split; [done|].
  apply map_eq. intros k. rewrite H3.
  destruct (decide (k ∈ item_filename <$> items w')) as [Hk|Hk]; [done|].
  rewrite <- (same_items_filenames (items w) (items w')) in Hk by by apply same_items.
  rewrite HF, new_files_other by done. reflexivity.
Qed.

End convergence.

(** C5, as stated, fails when two identities of a run share a filename:
    the second run over the same remote content finds the first page
    different from the stored hash, which is that of the second page, and
    writes the file again. *)
Lemma colliding_filenames_rewrite :
  let first := main ∅ (colliding_world "2025-01-01") in
  let second := main (final_dir first) (colliding_world "2025-01-02") in
  same_remote (colliding_world "2025-01-01") (colliding_world "2025-01-02")
  /\ platform_filename (platform_page "a/b.md" sample_page "")
     = platform_filename (platform_page "a__b.md" second_page "")
  /\ saved (local_state first) = ["platform__a__b.md"; "platform__a__b.md"]
  /\ saved (local_state second) = ["platform__a__b.md"].
Proof.
  split; [|vm_compute; done].
  unfold same_remote, colliding_world. cbn [code_discovery platform_discovery changelog_env].
  split; [|split].
  - repeat constructor.
  - repeat constructor.
  - intros attempt. reflexivity.
Qed.

(** C5, amended: an identity whose content has the hash stored under its
    filename in the previous manifest is not written, and its new entry
    carries the previous [last_updated] forward; and when the discovered
    identities have pairwise distinct filenames, a second run over the
    same remote content writes no file and leaves every entry, with its
    [last_updated], as the first run recorded it. *)
Theorem unchanged_content_is_not_rewritten :
  (forall previous clock filename content (o : origin) st e t,
     files previous !! filename = Some e ->
     hash e = Some (sha256_hex content) -> last_updated e = Some t ->
     let st' := sync_content previous clock filename content (make_entry o) st in
     docs_dir st' = docs_dir st /\ saved st' = saved st
     /\ new_files st' !! filename = Some (make_entry o (sha256_hex content) t))
  /\ (forall dir w w',
        NoDup (filenames w) -> same_remote w w' ->
        saved (local_state (main (final_dir (main dir w)) w')) = []
        /\ files (written (main (final_dir (main dir w)) w'))
           = files (written (main dir w))).
Proof.
  split; [|apply second_run_converges].
  intros previous clock filename content o st e t He Hh Ht.
  unfold sync_content, content_has_changed. rewrite He.
  cbn [mbind option_bind]. rewrite Hh, Ht. cbn [default from_option]. unfold id.
  generalize (sha256_hex content). intros h. rewrite String.eqb_refl.
  cbn [negb docs_dir saved new_files]. split; [done|]. split; [done|].
  apply lookup_insert_eq.
Qed.

Lemma unchanged_content_is_not_rewritten_witness :
  NoDup (filenames (plain_world "2025-01-01"))
  /\ same_remote (plain_world "2025-01-01") (plain_world "2025-01-02")
  /\ saved (local_state (main (final_dir (main ∅ (plain_world "2025-01-01")))
                              (plain_world "2025-01-02"))) = [].
Proof.
  assert (NoDup (filenames (plain_world "2025-01-01"))) as Hn.
  { change (NoDup ["code__ref__hooks.md"; "platform__api__messages.md"]).
    apply NoDup_cons. split; [|apply NoDup_singleton].
    intros H%list_elem_of_singleton. discriminate. }
  assert (same_remote (plain_world "2025-01-01") (plain_world "2025-01-02")) as Hs.
  { unfold same_remote, plain_world. cbn [code_discovery platform_discovery changelog_env].
    split; [|split].
    - repeat constructor.
    - repeat constructor.
    - intros attempt. reflexivity. }
  split; [done|]. split; [done|].
  exact (proj1 (proj2 unchanged_content_is_not_rewritten ∅ _ _ Hn Hs)).
Defined.

(** ** Hash integrity *)

Section integrity.
Implicit Types (previous : manifest) (st : run) (it : item) (its : list item).

Lemma sha256_hex_not_empty (content : string) : sha256_hex content <> "".
Proof.
  unfold sha256_hex, Sha256.hexdigest.
  generalize (Sha256.digest (utf8_encode content)). intros s H.
  apply (f_equal String.length) in H. discriminate H.
Qed.

Lemma docs_dir_sync_item previous st it :
  docs_dir (sync_item previous st it)
  = if content_has_changed (item_content it)
                           (default "" (files previous !! item_filename it ≫= hash))
    then <[item_filename it := TextFile (utf8_encode (item_content it))]> (docs_dir st)
    else docs_dir st.
Proof. pose proof (sync_item_core previous st it) as H. by injection H. Qed.

(** An unchanged item has an entry in the previous manifest, and that
    entry carries the hash of the content. *)
Lemma unchanged_has_entry previous it :
  content_has_changed (item_content it)
                      (default "" (files previous !! item_filename it ≫= hash)) = false ->
  exists e, files previous !! item_filename it = Some e
            /\ hash e = Some (sha256_hex (item_content it)).
Proof.
  unfold content_has_changed. intros H. apply negb_false_iff, String.eqb_eq in H.
  destruct (files previous !! item_filename it) as [e|]; cbn [mbind option_bind] in H.
  - exists e. split; [done|]. destruct (hash e) as [h|]; cbn [default from_option] in H.
    + unfold id in H. by rewrite H.
    + by apply sha256_hex_not_empty in H.
  - by apply sha256_hex_not_empty in H.
Qed.

(** Over items with distinct filenames whose files the run has not yet
    touched, hash integrity of the entries recorded so far is kept. *)
Lemma items_keep_hash_integrity previous (dir0 : gmap string file) its st :
  hash_integrity (files previous) dir0 ->
  NoDup (item_filename <$> its) ->
  (forall k, k ∈ item_filename <$> its -> docs_dir st !! k = dir0 !! k) ->
  hash_integrity (new_files st) (docs_dir st) ->
  hash_integrity (new_files (fold_left (sync_item previous) its st))
                 (docs_dir (fold_left (sync_item previous) its st)).
Proof.
  intros Hprev. revert st.
  induction its as [|it its IH]; intros st Hn Hdir Hst; [done|].
  rewrite fmap_cons, NoDup_cons in Hn. destruct Hn as [Hfresh Hn].
  cbn [fold_left]. apply IH; [done|..].
  - intros k Hk. rewrite docs_dir_sync_item.
    assert (k <> item_filename it) as Hne by (intros ->; done).
    destruct (content_has_changed _ _); [rewrite lookup_insert_ne by done|];
      apply Hdir; rewrite fmap_cons; by right.
  - intros k e. rewrite new_files_sync_item, docs_dir_sync_item.
    destruct (decide (k = item_filename it)) as [->|Hne].
    + rewrite lookup_insert_eq. intros [= <-].
      destruct (hash_make_entry (item_origin it) (sha256_hex (item_content it))
                                (stamp previous it)) as [-> _].
      destruct (content_has_changed _ _) eqn:Hc.
      * rewrite lookup_insert_eq. by eexists.
      * apply unchanged_has_entry in Hc as (e0 & He0 & Hh0).
        destruct (Hprev _ _ He0) as (bytes & Hb & Hh).
        exists bytes. rewrite Hdir by (rewrite fmap_cons; by left).
        split; [done|]. by rewrite <- Hh0.
    + rewrite lookup_insert_ne by done. intros He.
      destruct (Hst _ _ He) as (bytes & Hb & Hh). exists bytes.
      destruct (content_has_changed _ _); [rewrite lookup_insert_ne by done|]; done.
Qed.

Lemma fetched_files_items previous its st (k : string) :
  k ∈ item_filename <$> its ->
  k ∈ fetched_files (fold_left (sync_item previous) its st).
Proof.
  assert (forall its st, k ∈ fetched_files st ->
            k ∈ fetched_files (fold_left (sync_item previous) its st)) as Hmono.
  { clear. intros its. induction its as [|it its IH]; intros st H; [done|].
    cbn [fold_left]. apply IH. rewrite fetched_files_sync_item.
    apply elem_of_union. by right. }
  revert st. induction its as [|it its IH]; intros st Hk.
  - by apply elem_of_nil in Hk.
  - cbn [fold_left]. rewrite fmap_cons in Hk. apply elem_of_cons in Hk as [->|Hk].
    + apply Hmono. rewrite fetched_files_sync_item.
      apply elem_of_union. left. by apply elem_of_singleton.
    + by apply IH.
Qed.

(** X26: where the filenames of the identities synced in a run are
    pairwise distinct, the run keeps hash integrity: if every entry of
    the previous manifest names an existing file and stores the SHA-256
    of its bytes, so does every entry of the written manifest. Identities
    whose fetch failed may share a filename with a synced one. *)
Lemma distinct_filenames_keep_hash_integrity (dir : gmap string file) (w : world) :
  hash_integrity (files (load_manifest dir)) dir ->
  NoDup (item_filename <$> items w) ->
  hash_integrity (files (written (main dir w))) (final_dir (main dir w)).
Proof.
  intros Hprev Hn.
  assert (hash_integrity (new_files (start dir)) (docs_dir (start dir))) as H0
    by (intros k e He; cbn [new_files start] in He; by rewrite lookup_empty in He).
  pose proof (items_keep_hash_integrity (load_manifest dir) dir (items w) (start dir)
                Hprev Hn (fun _ _ => eq_refl) H0) as H.
  rewrite files_written_main.
  unfold main, save_manifest. cbn [final_dir].
  rewrite docs_dir_sync_all, fetched_files_sync_all.
  intros k e He.
  assert (k ∈ item_filename <$> items w) as Hk.
  { destruct (decide (k ∈ item_filename <$> items w)) as [|Hk]; [done|].
    by rewrite new_files_other in He. }
  destruct (H k e He) as (bytes & Hb & Hh).
  exists bytes. split; [|done].
  apply list_elem_of_fmap in Hk as (it & -> & Hit).
  rewrite lookup_insert_ne by (apply not_eq_sym; by apply (items_not_manifest w)).
  rewrite cleanup_old_files_lookup, decide_False; [done|].
  intros [Hrm _]. apply elem_of_difference in Hrm as [_ Hrm]. apply Hrm.
  apply fetched_files_items, list_elem_of_fmap. by exists it.
Qed.

End integrity.

(** C8: the run below starts from a directory and a manifest that satisfy
    hash integrity, left by a first run over the same pages, and ends
    with an entry whose hash is that of the second page while the file
    holds the first page. *)
Lemma colliding_filenames_break_hash_integrity :
  let dir := final_dir (main ∅ (colliding_world "2025-01-01")) in
  let second := main dir (colliding_world "2025-01-02") in
  hash_integrity (files (load_manifest dir)) dir
  /\ files (written second) !! "platform__a__b.md"
     = Some (platform_entry (platform_page "a__b.md" second_page "")
                            (sha256_hex second_page) "2025-01-01")
  /\ final_dir second !! "platform__a__b.md" = Some (TextFile (utf8_encode sample_page))
  /\ Sha256.hexdigest (utf8_encode sample_page) <> sha256_hex second_page
  /\ ~ hash_integrity (files (written second)) (final_dir second).
Proof.
  intros dir second.
  assert (files (load_manifest dir)
          = {[ "platform__a__b.md" :=
                 platform_entry (platform_page "a__b.md" second_page "")
                                (sha256_hex second_page) "2025-01-01" ]}) as Hfiles
    by (vm_compute; reflexivity).
  assert (files (written second) !! "platform__a__b.md"
          = Some (platform_entry (platform_page "a__b.md" second_page "")
                                 (sha256_hex second_page) "2025-01-01")) as Hentry
    by (vm_compute; reflexivity).
  assert (final_dir second !! "platform__a__b.md"
          = Some (TextFile (utf8_encode sample_page))) as Hfile
    by (vm_compute; reflexivity).
  assert (Sha256.hexdigest (utf8_encode sample_page) <> sha256_hex second_page) as Hne
    by (vm_compute; discriminate).
  split; [|split; [exact Hentry|split; [exact Hfile|split; [exact Hne|]]]].
  - intros k e. rewrite Hfiles. intros [<- <-]%lookup_singleton_Some.
    exists (utf8_encode second_page). split; vm_compute; reflexivity.
  - intros H. destruct (H _ _ Hentry) as (bytes & Hb & Hh).
    rewrite Hfile in Hb. apply Hne. clear Hne Hfiles Hentry Hfile H.
    revert Hb Hh. unfold platform_entry. cbn [hash].
    generalize (utf8_encode sample_page) (sha256_hex second_page).
    intros b h2 Hb Hh. congruence.
Qed.

(** * Further properties of the script *)

(** ** The fetch loops: what they return, how long they try *)

Section fetch_more.
Implicit Types (get : nat -> get_result) (attempts : list nat).

(** What a returned pair is made of. *)
Lemma fetch_markdown_attempts_return get filename attempts f c :
  fst (fetch_markdown_attempts get filename attempts) = Return (f, c) ->
  f = filename
  /\ exists attempt r,
       In attempt attempts /\ get attempt = GetReturns r /\ text r = c
       /\ status_code r <> 429%Z /\ raises_for_status r = false
       /\ exists warned, validate_markdown_content c = Accepted warned.
Proof.
  induction attempts as [|attempt rest IH]; [done|].
  cbn [fetch_markdown_attempts].
  assert (fst (fetch_markdown_attempts get filename rest) = Return (f, c) ->
          f = filename
          /\ exists a r,
               In a (attempt :: rest) /\ get a = GetReturns r /\ text r = c
               /\ status_code r <> 429%Z /\ raises_for_status r = false
               /\ exists warned, validate_markdown_content c = Accepted warned) as IH'.
  { intros H. destruct (IH H) as (-> & a & r & Ha & Hr). split; [done|].
    exists a, r. split; [by right | done]. }
  destruct (get attempt) as [|r] eqn:Hget.
  - destruct (attempt <? MAX_RETRIES - 1); simpl; [done | discriminate].
  - destruct (Z.eqb_spec (status_code r) 429) as [|Hs].
    + destruct (int_retry_after (retry_after_header r)) as [w|]; [|discriminate].
      destruct (time_sleep _ w); [discriminate | done].
    + destruct (raises_for_status r) eqn:Hraise.
      * destruct (attempt <? MAX_RETRIES - 1); simpl; [done | discriminate].
      * destruct (validate_markdown_content (text r)) as [warned|why] eqn:Hv;
          simpl; [|discriminate].
        intros [= <- <-]. split; [done|]. exists attempt, r.
        repeat split; try done; [by left | by exists warned].
Qed.

Lemma fetch_changelog_attempts_return get filename attempts f c :
  fst (fetch_changelog_attempts get filename attempts) = Return (f, c) ->
  f = filename
  /\ exists attempt r,
       In attempt attempts /\ get attempt = GetReturns r
       /\ c = changelog_header +:+ text r
       /\ status_code r <> 429%Z /\ raises_for_status r = false.
Proof.
  induction attempts as [|attempt rest IH]; [done|].
  cbn [fetch_changelog_attempts].
  assert (fst (fetch_changelog_attempts get filename rest) = Return (f, c) ->
          f = filename
          /\ exists a r,
               In a (attempt :: rest) /\ get a = GetReturns r
               /\ c = changelog_header +:+ text r
               /\ status_code r <> 429%Z /\ raises_for_status r = false) as IH'.
  { intros H. destruct (IH H) as (-> & a & r & Ha & Hr). split; [done|].
    exists a, r. split; [by right | done]. }
  destruct (get attempt) as [|r] eqn:Hget.
  - destruct (attempt <? MAX_RETRIES - 1); simpl; [done | discriminate].
  - destruct (Z.eqb_spec (status_code r) 429) as [|Hs].
    + destruct (int_retry_after (retry_after_header r)) as [w|]; [|discriminate].
      destruct (time_sleep _ w); [discriminate | done].
    + destruct (raises_for_status r) eqn:Hraise.
      * destruct (attempt <? MAX_RETRIES - 1); simpl; [done | discriminate].
      * rewrite changelog_long_enough. simpl. intros [= <- <-]. split; [done|].
        exists attempt, r. repeat split; try done. by left.
Qed.

(** The loops read the transport at the attempts of their list only. *)
Lemma fetch_markdown_attempts_agree get get' filename attempts :
  (forall attempt, In attempt attempts -> get attempt = get' attempt) ->
  fetch_markdown_attempts get filename attempts
  = fetch_markdown_attempts get' filename attempts.
Proof.
  induction attempts as [|attempt rest IH]; intros H; [done|].
  cbn [fetch_markdown_attempts].
  rewrite IH, (H attempt) by (intros; apply H; by right) || by left. done.
Qed.

Lemma fetch_changelog_attempts_agree get get' filename attempts :
  (forall attempt, In attempt attempts -> get attempt = get' attempt) ->
  fetch_changelog_attempts get filename attempts
  = fetch_changelog_attempts get' filename attempts.
Proof.
  induction attempts as [|attempt rest IH]; intros H; [done|].
  cbn [fetch_changelog_attempts].
  rewrite IH, (H attempt) by (intros; apply H; by right) || by left. done.
Qed.

Lemma backoff_delay_small attempt :
  attempt < MAX_RETRIES - 1 -> backoff_delay attempt = 2%Z \/ backoff_delay attempt = 4%Z.
Proof.
  unfold MAX_RETRIES. intros H.
  destruct attempt as [|[|?]]; [by left | by right | lia].
Qed.

Lemma fetch_markdown_attempts_waits get filename attempts :
  Forall possible_wait (snd (fetch_markdown_attempts get filename attempts))
  /\ length (snd (fetch_markdown_attempts get filename attempts)) <= length attempts.
Proof.
  induction attempts as [|attempt rest [IH1 IH2]]; [by split; [constructor|]|].
  cbn [fetch_markdown_attempts length].
  assert (Forall possible_wait
            (snd (if attempt <? MAX_RETRIES - 1
                  then (fst (fetch_markdown_attempts get filename rest),
                        BackoffWait (backoff_delay attempt)
                        :: snd (fetch_markdown_attempts get filename rest))
                  else (Raise FetchFailed, [])))
          /\ length (snd (if attempt <? MAX_RETRIES - 1
                          then (fst (fetch_markdown_attempts get filename rest),
                                BackoffWait (backoff_delay attempt)
                                :: snd (fetch_markdown_attempts get filename rest))
                          else (Raise FetchFailed, []))) <= S (length rest)) as Hback.
  { destruct (Nat.ltb_spec attempt (MAX_RETRIES - 1)) as [Hlt|]; simpl.
    - split; [|lia]. constructor; [|done]. by apply backoff_delay_small.
    - split; [constructor | lia]. }
  destruct (get attempt) as [|r]; [done|].
  destruct (status_code r =? 429)%Z.
  - destruct (int_retry_after (retry_after_header r)) as [w|]; simpl;
      [|split; [constructor | lia]].
    destruct (time_sleep_cases (retry_after_header r) w) as [(e & -> & _)|[-> Hw]]; simpl;
      [split; [constructor | lia]|].
    split; [by constructor | lia].
  - destruct (raises_for_status r); [done|].
    destruct (validate_markdown_content (text r)); simpl; (split; [constructor | lia]).
Qed.

Lemma fetch_changelog_attempts_waits get filename attempts :
  Forall possible_wait (snd (fetch_changelog_attempts get filename attempts))
  /\ length (snd (fetch_changelog_attempts get filename attempts)) <= length attempts.
Proof.
  induction attempts as [|attempt rest [IH1 IH2]]; [by split; [constructor|]|].
  cbn [fetch_changelog_attempts length].
  assert (Forall possible_wait
            (snd (if attempt <? MAX_RETRIES - 1
                  then (fst (fetch_changelog_attempts get filename rest),
                        BackoffWait (backoff_delay attempt)
                        :: snd (fetch_changelog_attempts get filename rest))
                  else (Raise FetchFailed, [])))
          /\ length (snd (if attempt <? MAX_RETRIES - 1
                          then (fst (fetch_changelog_attempts get filename rest),
                                BackoffWait (backoff_delay attempt)
                                :: snd (fetch_changelog_attempts get filename rest))
                          else (Raise FetchFailed, []))) <= S (length rest)) as Hback.
  { destruct (Nat.ltb_spec attempt (MAX_RETRIES - 1)) as [Hlt|]; simpl.
    - split; [|lia]. constructor; [|done]. by apply backoff_delay_small.
    - split; [constructor | lia]. }
  destruct (get attempt) as [|r]; [done|].
  destruct (status_code r =? 429)%Z.
  - destruct (int_retry_after (retry_after_header r)) as [w|]; simpl;
      [|split; [constructor | lia]].
    destruct (time_sleep_cases (retry_after_header r) w) as [(e & -> & _)|[-> Hw]]; simpl;
      [split; [constructor | lia]|].
    split; [by constructor | lia].
  - destruct (raises_for_status r); [done|].
    destruct (_ <? 100); simpl; (split; [constructor | lia]).
Qed.

End fetch_more.

Lemma startswith_app (h t : string) : PyStr.startswith (h +:+ t) h = true.
Proof.
  induction h as [|a h IH]; [by destruct t|].
  simpl. by rewrite Ascii.eqb_refl, IH.
Qed.

Lemma in_seq_attempts (attempt : nat) :
  In attempt (seq 0 MAX_RETRIES) <-> attempt < MAX_RETRIES.
Proof. rewrite in_seq. lia. Qed.

(** X1: whatever [fetch_markdown_content] returns carries the filename
    of the normaliser and the text of a response to one of the
    [MAX_RETRIES] attempts that was neither rate-limited nor an HTTP error
    and that the validator accepted. *)
Theorem fetch_markdown_content_returns_validated
    (get : nat -> get_result) (source : string) (category : option string)
    (page_path f c : string) :
  fst (fetch_markdown_content get source category page_path) = Return (f, c) ->
  f = url_to_safe_filename page_path source category
  /\ exists attempt r,
       attempt < MAX_RETRIES /\ get attempt = GetReturns r /\ text r = c
       /\ status_code r <> 429%Z /\ raises_for_status r = false
       /\ exists warned, validate_markdown_content c = Accepted warned.
Proof.
  intros H. apply fetch_markdown_attempts_return in H as (-> & a & r & Ha & Hr).
  split; [done|]. exists a, r. split; [by apply in_seq_attempts | done].
Qed.

Lemma fetch_markdown_content_returns_validated_witness :
  "platform__a.md" = url_to_safe_filename "a.md" "platform" None
  /\ exists attempt r,
       attempt < MAX_RETRIES
       /\ script [GetRaises] (ok_response sample_page) attempt = GetReturns r
       /\ text r = sample_page
       /\ status_code r <> 429%Z /\ raises_for_status r = false
       /\ exists warned, validate_markdown_content sample_page = Accepted warned.
Proof.
  apply (fetch_markdown_content_returns_validated
           (script [GetRaises] (ok_response sample_page)) "platform" None "a.md").
  vm_compute. reflexivity.
Defined.

(** X2: whatever [fetch_changelog] returns is named [changelog.md] and is
    the fixed header followed by the text of a response to one of the
    [MAX_RETRIES] attempts that was neither rate-limited nor an HTTP
    error. *)
Theorem fetch_changelog_returns_header (get : nat -> get_result) (f c : string) :
  fst (fetch_changelog get) = Return (f, c) ->
  f = "changelog.md"
  /\ PyStr.startswith c changelog_header = true
  /\ exists attempt r,
       attempt < MAX_RETRIES /\ get attempt = GetReturns r
       /\ c = changelog_header +:+ text r
       /\ status_code r <> 429%Z /\ raises_for_status r = false.
Proof.
  intros H. apply fetch_changelog_attempts_return in H as (-> & a & r & Ha & Hg & -> & Hr).
  split; [done|]. split; [apply startswith_app|].
  exists a, r. split; [by apply in_seq_attempts | done].
Qed.

Lemma fetch_changelog_returns_header_witness :
  PyStr.startswith (changelog_header +:+ "## 1.0.0") changelog_header = true.
Proof.
  apply (fetch_changelog_returns_header (fun _ => ok_response "## 1.0.0")
           "changelog.md" (changelog_header +:+ "## 1.0.0")).
  vm_compute. reflexivity.
Defined.

(** X3: a response whose content the validator rejects ends the fetch at
    once with the validator's error: no wait is made and the later
    answers of the transport are never requested. *)
Theorem fetch_markdown_content_stops_on_rejection
    (get : nat -> get_result) (source : string) (category : option string)
    (page_path : string) (r : response) (why : rejection) :
  get 0 = GetReturns r -> status_code r <> 429%Z -> raises_for_status r = false ->
  validate_markdown_content (text r) = Rejected why ->
  fetch_markdown_content get source category page_path
  = (Raise (ValidationError why), []).
Proof.
  intros Hget Hs%Z.eqb_neq Hraise Hv.
  unfold fetch_markdown_content. cbn [seq MAX_RETRIES fetch_markdown_attempts].
  by rewrite Hget, Hs, Hraise, Hv.
Qed.

Lemma fetch_markdown_content_stops_on_rejection_witness :
  fetch_markdown_content (script [ok_response "<html>moved</html>"] (ok_response sample_page))
                         "platform" None "a.md"
  = (Raise (ValidationError ReceivedHtml), []).
Proof.
  apply (fetch_markdown_content_stops_on_rejection _ _ _ _
           {| status_code := 200; retry_after_header := RetryAfterAbsent;
              text := "<html>moved</html>" |});
    [reflexivity | discriminate | reflexivity | reflexivity].
Defined.

(** X4: a fetch makes at most [MAX_RETRIES] requests: two transports
    that answer the attempts 0, 1 and 2 alike give the same outcome and
    the same waits, for pages and for the changelog. *)
Theorem fetch_reads_at_most_three_answers
    (get get' : nat -> get_result) (source : string) (category : option string)
    (page_path : string) :
  (forall attempt, attempt < MAX_RETRIES -> get attempt = get' attempt) ->
  fetch_markdown_content get source category page_path
  = fetch_markdown_content get' source category page_path
  /\ fetch_changelog get = fetch_changelog get'.
Proof.
  intros H. split.
  - apply fetch_markdown_attempts_agree. intros a Ha. by apply H, in_seq_attempts.
  - apply fetch_changelog_attempts_agree. intros a Ha. by apply H, in_seq_attempts.
Qed.

Lemma fetch_reads_at_most_three_answers_witness :
  fetch_changelog (script [GetRaises; GetRaises; GetRaises] (ok_response ""))
  = fetch_changelog (fun _ => GetRaises).
Proof.
  apply (fetch_reads_at_most_three_answers
           (script [GetRaises; GetRaises; GetRaises] (ok_response ""))
           (fun _ => GetRaises) "platform" None "a.md").
  intros attempt H. unfold MAX_RETRIES in H.
  destruct attempt as [|[|[|?]]]; [reflexivity.. | lia].
Defined.

(** X5: the waits of a fetch: there are at most [MAX_RETRIES] of them,
    a rate-limit wait is never negative, and a back-off lasts 2 or 4
    seconds before jitter, so the cap [MAX_RETRY_DELAY] is never reached. *)
Theorem fetch_waits_are_bounded
    (get : nat -> get_result) (source : string) (category : option string)
    (page_path : string) :
  Forall possible_wait (snd (fetch_markdown_content get source category page_path))
  /\ length (snd (fetch_markdown_content get source category page_path)) <= MAX_RETRIES
  /\ Forall possible_wait (snd (fetch_changelog get))
  /\ length (snd (fetch_changelog get)) <= MAX_RETRIES.
Proof.
  unfold fetch_markdown_content, fetch_changelog.
  destruct (fetch_markdown_attempts_waits
              get (url_to_safe_filename page_path source category) (seq 0 MAX_RETRIES))
    as [H1 H2].
  destruct (fetch_changelog_attempts_waits get "changelog.md" (seq 0 MAX_RETRIES))
    as [H3 H4].
  rewrite length_seq in H2, H4. done.
Qed.

(** X6: when each of the [MAX_RETRIES] attempts fails in the transport
    (an exception of [session.get], or a 4xx or 5xx status other than
    429), both fetch functions wait 2 and then 4 seconds and raise the
    final failure. *)
Theorem transport_failures_exhaust_retries
    (get : nat -> get_result) (source : string) (category : option string)
    (page_path : string) :
  (forall attempt, attempt < MAX_RETRIES -> transport_failure (get attempt) = true) ->
  fetch_markdown_content get source category page_path
  = (Raise FetchFailed, [BackoffWait 2; BackoffWait 4])
  /\ fetch_changelog get = (Raise FetchFailed, [BackoffWait 2; BackoffWait 4]).
Proof.
  intros H. unfold MAX_RETRIES in H.
  pose proof (H 0 ltac:(lia)) as H0. pose proof (H 1 ltac:(lia)) as H1.
  pose proof (H 2 ltac:(lia)) as H2. clear H.
  unfold fetch_markdown_content, fetch_changelog.
  cbn [seq MAX_RETRIES fetch_markdown_attempts fetch_changelog_attempts].
  unfold transport_failure in *.
  destruct (get 0) as [|r0], (get 1) as [|r1], (get 2) as [|r2];
    repeat match goal with
           | H : negb (?s =? 429)%Z && ?b = true |- _ =>
               apply andb_true_iff in H as [?%negb_true_iff ?]
           end;
    repeat match goal with H : _ = _ |- _ => rewrite H end; done.
Qed.

Lemma transport_failures_exhaust_retries_witness :
  fetch_changelog
    (fun _ => GetReturns {| status_code := 503; retry_after_header := RetryAfterAbsent;
                            text := "" |})
  = (Raise FetchFailed, [BackoffWait 2; BackoffWait 4]).
Proof.
  apply (transport_failures_exhaust_retries
           (fun _ => GetReturns {| status_code := 503;
                                   retry_after_header := RetryAfterAbsent; text := "" |})
           "platform" None "a.md").
  intros attempt _. reflexivity.
Defined.

(** ** The run: what it records, what it leaves on disk *)

Section run_more.
Implicit Types (previous : manifest) (st : run) (it : item) (its : list item).

Lemma saved_sync_item previous st it :
  saved (sync_item previous st it)
  = if content_has_changed (item_content it)
                           (default "" (files previous !! item_filename it ≫= hash))
    then saved st ++ [item_filename it] else saved st.
Proof. pose proof (sync_item_core previous st it) as H. by injection H. Qed.

Lemma fetched_files_fold previous its st (k : string) :
  k ∈ fetched_files (fold_left (sync_item previous) its st)
  <-> k ∈ fetched_files st \/ k ∈ item_filename <$> its.
Proof.
  revert st. induction its as [|it its IH]; intros st.
  - cbn [fold_left]. rewrite fmap_nil, elem_of_nil. tauto.
  - cbn [fold_left]. rewrite IH, fetched_files_sync_item, fmap_cons, elem_of_cons,
      elem_of_union, elem_of_singleton. tauto.
Qed.

Lemma new_files_dom_fold previous its st (k : string) :
  is_Some (new_files (fold_left (sync_item previous) its st) !! k)
  <-> is_Some (new_files st !! k) \/ k ∈ item_filename <$> its.
Proof.
  revert st. induction its as [|it its IH]; intros st.
  - cbn [fold_left]. rewrite fmap_nil, elem_of_nil. tauto.
  - cbn [fold_left]. rewrite IH, new_files_sync_item, fmap_cons, elem_of_cons.
    destruct (decide (k = item_filename it)) as [->|Hne].
    + rewrite lookup_insert_eq. split; [intros _; right; by left | intros _; left].
      by eexists.
    + rewrite lookup_insert_ne by done. tauto.
Qed.

(** Files the items do not name are not touched by the loops. *)
Lemma docs_dir_other previous its st (k : string) :
  k ∉ item_filename <$> its ->
  docs_dir (fold_left (sync_item previous) its st) !! k = docs_dir st !! k.
Proof.
  revert st. induction its as [|it its IH]; intros st Hk; [done|].
  rewrite fmap_cons, not_elem_of_cons in Hk. destruct Hk as [Hne Hk].
  cbn [fold_left]. rewrite IH, docs_dir_sync_item by done.
  destruct (content_has_changed _ _); [by rewrite lookup_insert_ne | done].
Qed.

(** A file after the loops is the file before them or the encoded
    content of one of the items. *)
Lemma docs_dir_fold_cases previous its st (k : string) :
  docs_dir (fold_left (sync_item previous) its st) !! k = docs_dir st !! k
  \/ exists it, it ∈ its /\ k = item_filename it
                /\ docs_dir (fold_left (sync_item previous) its st) !! k
                   = Some (TextFile (utf8_encode (item_content it))).
Proof.
  revert st. induction its as [|it its IH]; intros st; [by left|].
  cbn [fold_left]. destruct (IH (sync_item previous st it)) as [H|(x & Hx & -> & H)].
  - rewrite H, docs_dir_sync_item. destruct (content_has_changed _ _); [|by left].
    destruct (decide (k = item_filename it)) as [->|Hne].
    + right. exists it. rewrite lookup_insert_eq. split; [by left | done].
    + left. by rewrite lookup_insert_ne.
  - right. exists x. split; [by right | done].
Qed.

Lemma docs_dir_fold_is_Some previous its st (k : string) :
  is_Some (docs_dir st !! k) ->
  is_Some (docs_dir (fold_left (sync_item previous) its st) !! k).
Proof.
  intros H. destruct (docs_dir_fold_cases previous its st k) as [->|(x & _ & _ & ->)];
    [done | by eexists].
Qed.

(** An entry after the loops is an entry before them or the entry built
    from one of the items. *)
Lemma new_files_fold_cases previous its st (k : string) (e : entry) :
  new_files (fold_left (sync_item previous) its st) !! k = Some e ->
  new_files st !! k = Some e
  \/ exists it, it ∈ its /\ k = item_filename it
                /\ e = make_entry (item_origin it) (sha256_hex (item_content it))
                                  (stamp previous it).
Proof.
  revert st. induction its as [|it its IH]; intros st; [by left|].
  cbn [fold_left]. intros [H|(x & Hx & Hk & He)]%IH.
  - rewrite new_files_sync_item in H.
    destruct (decide (k = item_filename it)) as [->|Hne].
    + rewrite lookup_insert_eq in H. injection H as <-.
      right. exists it. split; [by left | done].
    + rewrite lookup_insert_ne in H by done. by left.
  - right. exists x. split; [by right | done].
Qed.

(** With hash-bearing entries for files that exist, every synced item
    has its file after the loops. *)
Lemma item_file_exists previous its st it :
  (forall k, k ∈ dom (files previous) -> is_Some (docs_dir st !! k)) ->
  it ∈ its ->
  is_Some (docs_dir (fold_left (sync_item previous) its st) !! item_filename it).
Proof.
  revert st. induction its as [|it0 its IH]; intros st Hprev Hin.
  - by apply elem_of_nil in Hin.
  - cbn [fold_left].
    assert (forall k, k ∈ dom (files previous) ->
                      is_Some (docs_dir (sync_item previous st it0) !! k)) as Hprev'.
    { intros k Hk. apply (docs_dir_fold_is_Some previous [it0] st k). by apply Hprev. }
    apply elem_of_cons in Hin as [->|Hin]; [|by apply IH].
    apply docs_dir_fold_is_Some. rewrite docs_dir_sync_item.
    destruct (content_has_changed _ _) eqn:Hc.
    + rewrite lookup_insert_eq. by eexists.
    + apply unchanged_has_entry in Hc as (e0 & He0 & _).
      apply Hprev, elem_of_dom. by eexists.
Qed.

(** The directory [main] leaves behind, file by file. *)
Lemma final_dir_lookup dir w (k : string) :
  k <> MANIFEST_FILE ->
  final_dir (main dir w) !! k
  = if decide (k ∈ dom (files (load_manifest dir)) /\ k ∉ item_filename <$> items w)
    then None
    else docs_dir (fold_left (sync_item (load_manifest dir)) (items w) (start dir)) !! k.
Proof.
  intros Hk. unfold main, save_manifest. cbn [final_dir].
  rewrite lookup_insert_ne by done.
  rewrite cleanup_old_files_lookup, docs_dir_sync_all, fetched_files_sync_all.
  apply decide_ext.
  rewrite elem_of_difference, fetched_files_fold. cbn [fetched_files start].
  rewrite elem_of_empty. tauto.
Qed.

Lemma files_written_dom dir w (k : string) :
  k ∈ dom (files (written (main dir w))) <-> k ∈ item_filename <$> items w.
Proof.
  rewrite elem_of_dom, files_written_main, new_files_dom_fold. cbn [new_files start].
  rewrite lookup_empty. split; [intros [[? [=]]|?]; done | by right].
Qed.

(** The content of a synced identity: a page passed the validator, the
    changelog starts with its header. *)
Lemma items_content w it :
  it ∈ items w ->
  (exists warned, validate_markdown_content (item_content it) = Accepted warned)
  \/ (item_origin it = FromChangelog
      /\ PyStr.startswith (item_content it) changelog_header = true).
Proof.
  unfold items. rewrite !elem_of_app, !list_elem_of_omap.
  intros [(doc & _ & H)|[(doc & _ & H)|H]].
  - left. unfold code_item, unpack in H.
    destruct (fst _) as [[f c]| |e] eqn:Hf; [|done..]. injection H as <-.
    apply fetch_markdown_attempts_return in Hf as (_ & a & r & _ & _ & _ & _ & _ & Hv).
    done.
  - left. unfold platform_item, unpack in H.
    destruct (fst _) as [[f c]| |e] eqn:Hf; [|done..]. injection H as <-.
    apply fetch_markdown_attempts_return in Hf as (_ & a & r & _ & _ & _ & _ & _ & Hv).
    done.
  - right. unfold changelog_item, unpack in H.
    destruct (fst _) as [[f c]| |e] eqn:Hf; simpl in H;
      [|by apply elem_of_nil in H..].
    apply list_elem_of_singleton in H as ->.
    apply fetch_changelog_attempts_return in Hf as (_ & a & r & _ & _ & -> & _).
    split; [done | apply startswith_app].
Qed.

End run_more.

Section statistics.
Implicit Types (previous : manifest) (st : run).

Lemma tallied_sync_content previous clock filename content mk st (n : nat) :
  tallied (S n) st ->
  tallied n (sync_content previous clock filename content mk st).
Proof.
  unfold tallied, sync_content, save_markdown_file.
  destruct (content_has_changed _ _); cbn [successful failed total_discovered failed_pages];
    lia.
Qed.

Lemma tallied_sync_failed label st (n : nat) :
  tallied (S n) st -> tallied n (sync_failed label st).
Proof.
  unfold tallied, sync_failed. cbn [successful failed total_discovered failed_pages].
  rewrite length_app. simpl. lia.
Qed.

(** A discovery announces its pages before any of them is processed. *)
Lemma tallied_discovered {A} (name : string) (docs : list A) st (n : nat) :
  tallied n st -> tallied (n + length docs) (discovered name docs st).
Proof.
  unfold tallied, discovered. cbn [successful failed total_discovered failed_pages]. lia.
Qed.

Lemma tallied_code_loop previous docs st (n : nat) :
  tallied (n + length docs) st -> tallied n (fold_left (sync_code_doc previous) docs st).
Proof.
  revert st. induction docs as [|doc docs IH]; intros st H.
  - by rewrite Nat.add_0_r in H.
  - cbn [fold_left length] in *. apply IH. rewrite sync_code_doc_item.
    replace (n + S (length docs)) with (S (n + length docs)) in H by lia.
    destruct (code_item doc); [by apply tallied_sync_content | by apply tallied_sync_failed].
Qed.

Lemma tallied_platform_loop previous docs st (n : nat) :
  tallied (n + length docs) st -> tallied n (fold_left (sync_platform_doc previous) docs st).
Proof.
  revert st. induction docs as [|doc docs IH]; intros st H.
  - by rewrite Nat.add_0_r in H.
  - cbn [fold_left length] in *. apply IH. rewrite sync_platform_doc_item.
    replace (n + S (length docs)) with (S (n + length docs)) in H by lia.
    destruct (platform_item doc);
      [by apply tallied_sync_content | by apply tallied_sync_failed].
Qed.

(** Once both sources are through, nothing is pending. *)
Lemma tallied_sources previous w dir :
  tallied 0 (sync_platform_source previous (platform_discovery w)
               (sync_code_source previous (code_discovery w) (start dir))).
Proof.
  assert (tallied 0 (sync_code_source previous (code_discovery w) (start dir))) as H1.
  { unfold sync_code_source. destruct (code_discovery w) as [docs|]; [|by split].
    apply tallied_code_loop, (tallied_discovered _ _ _ 0). by split. }
  revert H1. generalize (sync_code_source previous (code_discovery w) (start dir)).
  intros st1 H1. unfold sync_platform_source.
  destruct (platform_discovery w) as [docs|]; [|done].
  by apply tallied_platform_loop, (tallied_discovered _ _ _ 0).
Qed.

End statistics.

(** X7: the statistics of a run add up. The changelog is processed but
    never announced as discovered, so successes and failures together
    exceed the discovered pages by exactly one (a full success reports one
    more success than pages discovered), and the list of failed pages has
    one label per failure. *)
Theorem run_statistics_add_up (dir : gmap string file) (w : world) :
  exists m, metadata (written (main dir w)) = Some m
    /\ pages_fetched_successfully m + pages_failed m = total_pages_discovered m + 1
    /\ length (failed_pages_reported m) = pages_failed m
    /\ total_pages_discovered m
       = length (default [] (code_discovery w))
         + length (default [] (platform_discovery w)).
Proof.
  eexists. split; [reflexivity|].
  cbn [pages_fetched_successfully pages_failed total_pages_discovered
       failed_pages_reported].
  pose proof (tallied_sources (load_manifest dir) w dir) as [H1 H2].
  unfold sync_all, sync_changelog.
  assert (total_discovered
            (sync_platform_source (load_manifest dir) (platform_discovery w)
               (sync_code_source (load_manifest dir) (code_discovery w) (start dir)))
          = length (default [] (code_discovery w))
            + length (default [] (platform_discovery w))) as Ht.
  { assert (forall docs st,
              total_discovered (fold_left (sync_code_doc (load_manifest dir)) docs st)
              = total_discovered st) as Hc.
    { induction docs as [|doc docs IH]; intros st; [done|].
      cbn [fold_left]. rewrite IH, sync_code_doc_item.
      destruct (code_item doc); [|done].
      unfold sync_item, sync_content, save_markdown_file.
      by destruct (content_has_changed _ _). }
    assert (forall docs st,
              total_discovered (fold_left (sync_platform_doc (load_manifest dir)) docs st)
              = total_discovered st) as Hp.
    { induction docs as [|doc docs IH]; intros st; [done|].
      cbn [fold_left]. rewrite IH, sync_platform_doc_item.
      destruct (platform_item doc); [|done].
      unfold sync_item, sync_content, save_markdown_file.
      by destruct (content_has_changed _ _). }
    unfold sync_platform_source, sync_code_source.
    destruct (platform_discovery w) as [pdocs|], (code_discovery w) as [cdocs|];
      rewrite ?Hp; cbn [total_discovered discovered]; rewrite ?Hc; simpl; lia. }
  revert H1 H2 Ht.
  generalize (sync_platform_source (load_manifest dir) (platform_discovery w)
                (sync_code_source (load_manifest dir) (code_discovery w) (start dir))).
  intros st H1 H2 Ht.
  destruct (unpack _) as [e|[filename content]].
  - unfold sync_failed. cbn [successful failed total_discovered failed_pages].
    rewrite length_app. simpl. lia.
  - unfold sync_content, save_markdown_file.
    destruct (content_has_changed _ _);
      cbn [successful failed total_discovered failed_pages]; lia.
Qed.

(** X8: the written manifest lists exactly the files synced in this
    run: its keys are the set [fetched_files], which is the set of
    filenames of the identities whose fetch returned, and [total_files]
    is the number of its entries. No entry of the previous manifest is
    carried over on its own. *)
Theorem written_manifest_lists_synced_files
    (dir : gmap string file) (w : world) (filename : string) :
  (filename ∈ dom (files (written (main dir w)))
   <-> filename ∈ fetched_files (local_state (main dir w)))
  /\ (filename ∈ dom (files (written (main dir w)))
      <-> filename ∈ item_filename <$> items w)
  /\ total_files <$> metadata (written (main dir w))
     = Some (size (files (written (main dir w)))).
Proof.
  assert (forall k, k ∈ dom (files (written (main dir w)))
                    <-> k ∈ fetched_files (local_state (main dir w))) as H.
  { intros k. rewrite files_written_dom. unfold main. cbn [local_state].
    rewrite fetched_files_sync_all, fetched_files_fold. cbn [fetched_files start].
    rewrite elem_of_empty. tauto. }
  split; [apply H|]. split; [apply files_written_dom|].
  apply set_eq in H. rewrite <- size_dom, H. reflexivity.
Qed.

(** X9: every entry of the written manifest was built in this run from
    an identity whose fetch returned: it sits under that identity's
    filename, has the shape of its origin and stores the SHA-256 of the
    content fetched for it. *)
Theorem written_entries_come_from_synced_content
    (dir : gmap string file) (w : world) (filename : string) (e : entry) :
  files (written (main dir w)) !! filename = Some e ->
  exists it, it ∈ items w /\ filename = item_filename it
             /\ e = make_entry (item_origin it) (sha256_hex (item_content it))
                               (stamp (load_manifest dir) it)
             /\ hash e = Some (sha256_hex (item_content it)).
Proof.
  rewrite files_written_main. intros [H|(it & Hit & -> & ->)]%new_files_fold_cases.
  - cbn [new_files start] in H. by rewrite lookup_empty in H.
  - exists it. repeat split; try done. apply hash_make_entry.
Qed.

Lemma written_entries_come_from_synced_content_witness :
  exists it, it ∈ items (plain_world "2025-01-01")
             /\ "changelog.md" = item_filename it
             /\ changelog_entry (sha256_hex (changelog_header +:+ "")) "2025-01-01"
                = make_entry (item_origin it) (sha256_hex (item_content it))
                             (stamp (load_manifest ∅) it)
             /\ hash (changelog_entry (sha256_hex (changelog_header +:+ "")) "2025-01-01")
                = Some (sha256_hex (item_content it)).
Proof.
  apply (written_entries_come_from_synced_content ∅ (plain_world "2025-01-01")).
  vm_compute. reflexivity.
Defined.

(** X10: a file of the previous manifest that no identity synced in this
    run names is deleted and has no entry in the written manifest. This
    covers a page that vanished upstream, a page whose fetch failed in
    this run, and every page of a source whose discovery raised. *)
Theorem unsynced_files_are_pruned
    (dir : gmap string file) (w : world) (filename : string) :
  filename ∈ dom (files (load_manifest dir)) ->
  filename ∉ item_filename <$> items w ->
  filename <> MANIFEST_FILE ->
  final_dir (main dir w) !! filename = None
  /\ files (written (main dir w)) !! filename = None.
Proof.
  intros Hprev Hit Hm. split.
  - rewrite final_dir_lookup, decide_True; done.
  - apply not_elem_of_dom. by rewrite files_written_dom.
Qed.

Lemma unsynced_files_are_pruned_witness :
  is_Some (synced_dir !! "platform__api__messages.md")
  /\ final_dir (main synced_dir (unreachable_world "2025-01-02"))
     !! "platform__api__messages.md" = None.
Proof.
  split; [apply (bool_decide_unpack _); vm_compute; exact I|].
  apply (unsynced_files_are_pruned synced_dir (unreachable_world "2025-01-02")).
  - apply (bool_decide_unpack _). vm_compute. exact I.
  - apply (bool_decide_unpack _). vm_compute. exact I.
  - discriminate.
Defined.

(** X11: a file that the previous manifest does not list and that no
    identity synced in this run names is left exactly as it was: files
    added by hand survive a run. *)
Theorem unlisted_files_are_kept
    (dir : gmap string file) (w : world) (filename : string) :
  filename ∉ dom (files (load_manifest dir)) ->
  filename ∉ item_filename <$> items w ->
  filename <> MANIFEST_FILE ->
  final_dir (main dir w) !! filename = dir !! filename.
Proof.
  intros Hprev Hit Hm. rewrite final_dir_lookup, decide_False by tauto.
  by rewrite docs_dir_other.
Qed.

Lemma unlisted_files_are_kept_witness :
  final_dir (main {[ "NOTES.md" := TextFile [35%Z] ]} (plain_world "2025-01-01"))
  !! "NOTES.md" = Some (TextFile [35%Z]).
Proof.
  rewrite (unlisted_files_are_kept {[ "NOTES.md" := TextFile [35%Z] ]}
             (plain_world "2025-01-01") "NOTES.md").
  - apply lookup_singleton_eq.
  - apply (bool_decide_unpack _). vm_compute. exact I.
  - apply (bool_decide_unpack _). vm_compute. exact I.
  - discriminate.
Defined.

(** X12: if every file of the previous manifest exists at the start,
    every file of the written manifest exists at the end, also when
    filenames collide. *)
Theorem run_keeps_no_missing_files (dir : gmap string file) (w : world) :
  no_missing_files (files (load_manifest dir)) dir ->
  no_missing_files (files (written (main dir w))) (final_dir (main dir w)).
Proof.
  intros Hprev k Hk.
  destruct (decide (k = MANIFEST_FILE)) as [->|Hm].
  { unfold main, save_manifest. cbn [final_dir]. rewrite lookup_insert_eq. by eexists. }
  apply files_written_dom in Hk.
  rewrite final_dir_lookup, decide_False by tauto.
  apply list_elem_of_fmap in Hk as (it & -> & Hit).
  by apply item_file_exists.
Qed.

Lemma run_keeps_no_missing_files_witness :
  no_missing_files (files (written (main ∅ (colliding_world "2025-01-01"))))
                   (final_dir (main ∅ (colliding_world "2025-01-01"))).
Proof.
  apply run_keeps_no_missing_files.
  intros k Hk. change (files (load_manifest ∅)) with (∅ : gmap string entry) in Hk.
  rewrite dom_empty_L in Hk. by apply not_elem_of_empty in Hk.
Defined.

(** X13: if every file of the directory other than the manifest is
    listed in the previous manifest at the start, every file other than
    the manifest is listed in the written manifest at the end: a run
    leaves no orphan behind. *)
Theorem run_keeps_no_orphaned_files (dir : gmap string file) (w : world) :
  no_orphaned_files (files (load_manifest dir)) dir ->
  no_orphaned_files (files (written (main dir w))) (final_dir (main dir w)).
Proof.
  intros Hprev k Hk Hm. apply files_written_dom.
  rewrite final_dir_lookup in Hk by done.
  destruct (decide (k ∈ item_filename <$> items w)) as [|Hit]; [done|].
  exfalso. case_decide as Hd; [by destruct Hk|].
  rewrite docs_dir_other in Hk by done. cbn [docs_dir start] in Hk.
  apply Hd. split; [by apply Hprev | done].
Qed.

Lemma run_keeps_no_orphaned_files_witness :
  no_orphaned_files (files (written (main ∅ (plain_world "2025-01-01"))))
                    (final_dir (main ∅ (plain_world "2025-01-01"))).
Proof.
  apply run_keeps_no_orphaned_files.
  intros k [f Hk]. by rewrite lookup_empty in Hk.
Defined.

(** X14: everything a run leaves in the directory besides the manifest
    is a file it did not touch or the UTF-8 encoding of content fetched in
    this run; such content passed the validator or, for the changelog,
    starts with the fixed header. Rejected content never reaches the disk. *)
Theorem run_writes_only_synced_content
    (dir : gmap string file) (w : world) (filename : string) (f : file) :
  final_dir (main dir w) !! filename = Some f ->
  filename <> MANIFEST_FILE ->
  dir !! filename = Some f
  \/ exists it, it ∈ items w /\ filename = item_filename it
                /\ f = TextFile (utf8_encode (item_content it))
                /\ ((exists warned,
                       validate_markdown_content (item_content it) = Accepted warned)
                    \/ PyStr.startswith (item_content it) changelog_header = true).
Proof.
  intros Hf Hm. rewrite final_dir_lookup in Hf by done.
  case_decide; [done|].
  destruct (docs_dir_fold_cases (load_manifest dir) (items w) (start dir) filename)
    as [H0|(it & Hit & -> & H1)].
  - left. by rewrite <- Hf, H0.
  - right. exists it. rewrite H1 in Hf. injection Hf as <-.
    repeat split; try done.
    destruct (items_content w it Hit) as [?|[_ ?]]; [by left | by right].
Qed.

Lemma run_writes_only_synced_content_witness :
  synced_dir !! "code__ref__hooks.md" = Some (TextFile (utf8_encode sample_page))
  /\ ((∅ : gmap string file) !! "code__ref__hooks.md"
        = Some (TextFile (utf8_encode sample_page))
      \/ exists it, it ∈ items (plain_world "2025-01-01")
           /\ "code__ref__hooks.md" = item_filename it
           /\ TextFile (utf8_encode sample_page) = TextFile (utf8_encode (item_content it))
           /\ ((exists warned,
                  validate_markdown_content (item_content it) = Accepted warned)
               \/ PyStr.startswith (item_content it) changelog_header = true)).
Proof.
  assert (synced_dir !! "code__ref__hooks.md"
          = Some (TextFile (utf8_encode sample_page))) as H by (vm_compute; reflexivity).
  split; [exact H|].
  apply (run_writes_only_synced_content ∅ (plain_world "2025-01-01")); [exact H|].
  discriminate.
Defined.

Lemma distinct_filenames_keep_hash_integrity_witness :
  filenames (half_colliding_world "2025-01-01") = ["platform__a__b.md"; "platform__a__b.md"]
  /\ hash_integrity (files (written (main ∅ (half_colliding_world "2025-01-01"))))
                    (final_dir (main ∅ (half_colliding_world "2025-01-01"))).
Proof.
  split; [reflexivity|].
  apply (distinct_filenames_keep_hash_integrity ∅ (half_colliding_world "2025-01-01")).
  - intros k e Hk. change (files (load_manifest ∅)) with (∅ : gmap string entry) in Hk.
    by rewrite lookup_empty in Hk.
  - assert (item_filename <$> items (half_colliding_world "2025-01-01")
            = ["platform__a__b.md"]) as -> by (vm_compute; reflexivity).
    apply NoDup_singleton.
Defined.

(** ** More on the validator and the normaliser *)

Section normaliser_more.
Implicit Types (s t p : string) (c : option string).

Lemma filter_length_le {A} (f : A -> bool) (l : list A) :
  length (List.filter f l) <= length l.
Proof. induction l as [|x l IH]; simpl; [lia|]. destruct (f x); simpl; lia. Qed.

Lemma indicator_lines_le_lines content :
  indicator_lines content <= length (PyStr.split_char newline content).
Proof.
  unfold indicator_lines. etrans; [apply filter_length_le|].
  rewrite length_firstn. lia.
Qed.

Lemma replace_slash_no_slash s : ~ PyStr.has_char "/" (PyStr.replace_char "/" "__" s).
Proof.
  induction s as [|a s IH]; simpl; [tauto|].
  destruct (Ascii.eqb_spec a "/") as [->|Ha]; simpl; [|tauto].
  intros [H|[H|H]]; [discriminate.. | tauto].
Qed.

Lemma contains_char_false (a : ascii) s :
  PyStr.contains (String a "") s = false <-> ~ PyStr.has_char a s.
Proof.
  rewrite <- contains_char. destruct (PyStr.contains _ s); split; (done || tauto).
Qed.

Lemma endswith_len s suf : PyStr.endswith s suf = true -> PyStr.len suf <= PyStr.len s.
Proof. intros [t ->]%endswith_spec. rewrite len_app. lia. Qed.

Lemma without_md_leading_slash p :
  without_md (String "/" p) = String "/" (without_md p).
Proof.
  unfold without_md. cbn [PyStr.endswith].
  change (String.eqb (String "/" p) ".md") with false. cbn [orb].
  destruct (PyStr.endswith p ".md") eqn:He; [|done].
  apply endswith_len in He. unfold PyStr.drop_last, PyStr.len in *. simpl in He.
  cbn [String.length].
  replace (S (String.length p) - 3) with (S (String.length p - 3)) by lia.
  reflexivity.
Qed.

End normaliser_more.

(** X15: content that the validator accepts has at least 50 characters
    and at least three lines, three of them with a markdown indicator
    among the first 50: a document of one or two lines is rejected
    whatever it contains. The warning flag is set exactly when none of the
    documentation patterns occurs. *)
Theorem accepted_content_has_three_lines (content : string) (warned : bool) :
  validate_markdown_content content = Accepted warned ->
  50 <= PyStr.len content
  /\ 3 <= length (PyStr.split_char newline content)
  /\ 3 <= indicator_lines content
  /\ looks_like_html content = false
  /\ warned = negb (mentions_doc_pattern content).
Proof.
  rewrite validate_markdown_content_cases.
  destruct (looks_like_html content); [discriminate|].
  destruct (Nat.ltb_spec (PyStr.len (PyStr.strip content)) 50); [discriminate|].
  destruct (Nat.ltb_spec (indicator_lines content) 3); [discriminate|].
  intros [= <-]. pose proof (len_strip content). pose proof (indicator_lines_le_lines content).
  repeat split; lia.
Qed.

Lemma accepted_content_has_three_lines_witness :
  50 <= PyStr.len sample_page
  /\ 3 <= length (PyStr.split_char newline sample_page)
  /\ 3 <= indicator_lines sample_page
  /\ looks_like_html sample_page = false
  /\ true = negb (mentions_doc_pattern sample_page).
Proof.
  apply (accepted_content_has_three_lines sample_page true). reflexivity.
Defined.

(** X16: filenames are flat. When neither the source nor the category
    contains a slash, as for the two origins [main] uses, the filename
    contains none, whatever the path. *)
Theorem url_to_safe_filename_is_flat
    (url_path source : string) (category : option string) :
  PyStr.contains "/" source = false ->
  PyStr.contains "/" (category_text category) = false ->
  PyStr.contains "/" (url_to_safe_filename url_path source category) = false.
Proof.
  rewrite !contains_char_false, url_to_safe_filename_unfold. intros Hs Hc.
  rewrite !has_char_app. intros [H|[H|[H|H]]].
  - destruct (_ && _); [|done]. apply has_char_app in H as [H|H]; [|done].
    simpl in H. intuition discriminate.
  - simpl in H. intuition discriminate.
  - by apply replace_slash_no_slash in H.
  - simpl in H. intuition discriminate.
Qed.

Lemma url_to_safe_filename_is_flat_witness :
  PyStr.contains "/" (url_to_safe_filename "/api//messages/.md" "platform" None) = false.
Proof. apply url_to_safe_filename_is_flat; reflexivity. Defined.

(** X17: no page is ever stored under a reserved name. Every filename of
    the normaliser ends in [.md] and is neither the manifest file nor
    [changelog.md], so a page can overwrite neither of them. *)
Theorem url_to_safe_filename_avoids_reserved_names
    (url_path source : string) (category : option string) :
  PyStr.endswith (url_to_safe_filename url_path source category) ".md" = true
  /\ url_to_safe_filename url_path source category <> MANIFEST_FILE
  /\ url_to_safe_filename url_path source category <> "changelog.md".
Proof.
  split; [apply url_to_safe_filename_endswith_md|].
  split; [apply url_to_safe_filename_not_manifest
         | apply url_to_safe_filename_not_changelog].
Qed.

(** X18: a leading slash of the path is ignored: the path with one more
    slash in front yields the same filename. *)
Theorem url_to_safe_filename_ignores_leading_slash
    (url_path source : string) (category : option string) :
  url_to_safe_filename (String "/" url_path) source category
  = url_to_safe_filename url_path source category.
Proof.
  rewrite !url_to_safe_filename_unfold, without_md_leading_slash.
  do 4 f_equal.
Qed.

Example discover_two_links :
  find_links PLATFORM_LINKS false 0
    (link_list PLATFORM_LINKS [("A", "a/b.md"); ("B [x]", "a__b.md")])
  = ["a/b.md"; "a__b.md"].
Proof. vm_compute. reflexivity. Qed.

Example discover_code :
  discover_claude_code_docs
    (ok_response ("# Docs" +:+ String newline
      "- [Hooks](https://code.claude.com/docs/en/hooks.md): x [y](z) "
      +:+ "[New](https://code.claude.com/docs/en/brand-new.md)" +:+ String newline
      "[MCP](https://code.claude.com/docs/en/mcp.md) (https://code.claude.com/docs/en/skills.md)"))
  = Some [("https://code.claude.com/docs/en/hooks.md", "hooks", "ref");
          ("https://code.claude.com/docs/en/mcp.md", "mcp", "bwc")].
Proof. vm_compute. reflexivity. Qed.

Example ref_with_newline : validated_ref (Some (String "m" (String newline ""))) = String "m" (String newline "").
Proof. vm_compute. reflexivity. Qed.

Example repo_checks :
  validated_repository (Some "octo-cat/claude.docs") = "octo-cat/claude.docs"
  /\ validated_repository (Some "a/b/c") = "kreitter/claude-docs"
  /\ validated_repository (Some "a b/c") = "kreitter/claude-docs"
  /\ validated_repository None = "kreitter/claude-docs"
  /\ new_url_to_safe_filename "/en/docs/claude-code/hooks" = "docs__claude-code__hooks.md".
Proof. vm_compute. done. Qed.

(** ** The persisted repository identity and the migration filenames *)

Section identity.
Implicit Types (s : string).

Lemma before_final_newline_app s :
  before_final_newline (s +:+ String newline "") = s.
Proof.
  unfold before_final_newline. rewrite endswith_app.
  apply (drop_last_app s (String newline "")).
Qed.

Lemma lstrip_char_id (c : ascii) s :
  ~ PyStr.has_char c s -> PyStr.lstrip_char c s = s.
Proof.
  destruct s as [|a s]; [done|]. simpl. intros H.
  destruct (Ascii.eqb_spec a c) as [->|_]; [tauto | done].
Qed.

Lemma rstrip_char_id (c : ascii) s :
  ~ PyStr.has_char c s -> PyStr.rstrip_char c s = s.
Proof.
  induction s as [|a s IH]; [done|]. simpl. intros H.
  rewrite IH by tauto. destruct s as [|b s]; [|done].
  destruct (Ascii.eqb_spec a c) as [->|_]; [tauto | done].
Qed.

Lemma new_url_to_safe_filename_no_slash s :
  ~ PyStr.has_char "/" (new_url_to_safe_filename s).
Proof.
  unfold new_url_to_safe_filename.
  match goal with
  | |- context [if PyStr.endswith ?x ".md" then ?x else _] =>
      destruct (PyStr.endswith x ".md")
  end; [apply replace_slash_no_slash|].
  rewrite has_char_app. intros [H|H]; [by apply replace_slash_no_slash in H|].
  simpl in H. intuition discriminate.
Qed.

Lemma new_url_to_safe_filename_endswith_md s :
  PyStr.endswith (new_url_to_safe_filename s) ".md" = true.
Proof.
  unfold new_url_to_safe_filename.
  match goal with
  | |- context [if PyStr.endswith ?x ".md" then ?x else _] =>
      destruct (PyStr.endswith x ".md") eqn:H
  end; [done | apply endswith_app].
Qed.

End identity.

(** X19: what [save_manifest] persists as repository and ref always
    matches the pattern it is checked against, whatever the environment
    holds: a value that does not match is replaced by the default, and the
    defaults match. *)
Theorem persisted_identity_matches_patterns (repository_env ref_env : option string) :
  repository_matches (validated_repository repository_env) = true
  /\ ref_matches (validated_ref ref_env) = true.
Proof.
  unfold validated_repository, validated_ref. split.
  - destruct (repository_matches (default _ repository_env)) eqn:H; [done | reflexivity].
  - destruct (ref_matches (default _ ref_env)) eqn:H; [done | reflexivity].
Qed.

(** X20: the check of the ref lets one trailing newline through, because
    [$] also matches before a final newline: an identifier followed by a
    newline is persisted as it is, and the base URL built from it
    contains the newline. *)
Theorem ref_with_trailing_newline_is_persisted
    (repository_env : option string) (s : string) :
  identifier s = true ->
  validated_ref (Some (s +:+ String newline "")) = s +:+ String newline ""
  /\ PyStr.contains (String newline "")
       (base_url repository_env (Some (s +:+ String newline ""))) = true.
Proof.
  intros Hs.
  assert (validated_ref (Some (s +:+ String newline "")) = s +:+ String newline "") as H.
  { unfold validated_ref, ref_matches. cbn [default from_option]. unfold id.
    by rewrite before_final_newline_app, Hs. }
  split; [done|]. apply contains_char. unfold base_url. rewrite H.
  rewrite !has_char_app. right. right. right. left. right. by left.
Qed.

Lemma ref_with_trailing_newline_is_persisted_witness :
  validated_ref (Some ("main" +:+ String newline "")) = "main" +:+ String newline "".
Proof.
  apply (ref_with_trailing_newline_is_persisted None "main"). reflexivity.
Defined.

(** X21: the filename scheme of the migration script is idempotent, and
    its filenames are flat and end in [.md]: renaming by the script's rule
    a second time changes nothing. *)
Theorem new_url_to_safe_filename_idempotent (url_path : string) :
  new_url_to_safe_filename (new_url_to_safe_filename url_path)
  = new_url_to_safe_filename url_path
  /\ PyStr.endswith (new_url_to_safe_filename url_path) ".md" = true
  /\ PyStr.contains "/" (new_url_to_safe_filename url_path) = false.
Proof.
  pose proof (new_url_to_safe_filename_no_slash url_path) as Hs.
  pose proof (new_url_to_safe_filename_endswith_md url_path) as He.
  split; [|split; [done | by apply contains_char_false]].
  revert Hs He. generalize (new_url_to_safe_filename url_path). intros y Hs He.
  unfold new_url_to_safe_filename.
  assert (PyStr.startswith y "/en/" = false) as ->.
  { destruct y as [|a y]; [done|]. simpl.
    destruct (Ascii.eqb_spec a "/") as [->|_]; [|done]. exfalso. apply Hs. by left. }
  unfold PyStr.strip_char.
  by rewrite lstrip_char_id, rstrip_char_id, replace_slash_id, He.
Qed.

(** ** Discovery *)

Section discovery.
Implicit Types (s t u v prefix : string).

Lemma until_paren_spec s t :
  until_paren s = Some t ->
  ~ PyStr.has_char ")" t /\ exists rest, s = t +:+ String ")" rest.
Proof.
  revert t. induction s as [|a s IH]; intros t; [done|]. simpl.
  destruct (Ascii.eqb_spec a ")") as [->|Ha].
  - intros [= <-]. split; [tauto | by exists s].
  - destruct (until_paren s) as [t'|]; [|done]. simpl. intros [= <-].
    destruct (IH t' eq_refl) as [Hn [rest ->]]. split.
    + simpl. intros [H|H]; [congruence | tauto].
    + by exists rest.
Qed.

Lemma until_paren_app t rest :
  ~ PyStr.has_char ")" t -> until_paren (t +:+ String ")" rest) = Some t.
Proof.
  induction t as [|a t IH]; simpl; [done|]. intros H.
  destruct (Ascii.eqb_spec a ")") as [->|_]; [tauto|]. rewrite IH; tauto.
Qed.

Lemma str_drop_app u v : str_drop (PyStr.len u) (u +:+ v) = v.
Proof. induction u as [|a u IH]; [by destruct v | done]. Qed.

Lemma startswith_spec s p : PyStr.startswith s p = true -> exists r, s = p +:+ r.
Proof.
  revert s. induction p as [|b p IH]; intros s; [by exists s|].
  destruct s as [|a s]; [done|]. simpl.
  intros [->%Ascii.eqb_eq [r ->]%IH]%andb_true_iff. by exists r.
Qed.

Lemma link_target_spec prefix s t :
  link_target prefix s = Some t ->
  (exists rest, s = "](" +:+ prefix +:+ t +:+ String ")" rest)
  /\ ~ PyStr.has_char ")" t
  /\ PyStr.endswith t ".md" = true /\ 3 < PyStr.len t.
Proof.
  unfold link_target.
  destruct (PyStr.startswith s ("](" +:+ prefix)) eqn:Hs; [|done].
  apply startswith_spec in Hs as [r ->].
  change (2 + PyStr.len prefix) with (PyStr.len ("](" +:+ prefix)).
  rewrite str_drop_app.
  destruct (until_paren r) as [t'|] eqn:Hr; [|done].
  destruct (PyStr.endswith t' ".md") eqn:He; [|done].
  destruct (Nat.ltb_spec 3 (PyStr.len t')); [|done]. simpl. intros [= <-].
  apply until_paren_spec in Hr as [Hn [rest ->]].
  repeat split; try done. exists rest. simpl. by rewrite ?app_assoc_str.
Qed.

Lemma link_target_app prefix t rest :
  ~ PyStr.has_char ")" t -> PyStr.endswith t ".md" = true -> 3 < PyStr.len t ->
  link_target prefix (("](" +:+ prefix) +:+ t +:+ String ")" rest) = Some t.
Proof.
  intros Hn He Hl. unfold link_target. rewrite startswith_app.
  change (2 + PyStr.len prefix) with (PyStr.len ("](" +:+ prefix)).
  rewrite str_drop_app, until_paren_app, He by done.
  by destruct (Nat.ltb_spec 3 (PyStr.len t)); [|lia].
Qed.

(** Every match sits in the text, at some position, in full. *)
Lemma find_links_sound prefix (opened : bool) (skip : nat) s t :
  In t (find_links prefix opened skip s) ->
  exists u v, s = u +:+ v /\ link_target prefix v = Some t.
Proof.
  revert opened skip. induction s as [|a s IH]; intros opened skip; [done|].
  cbn [find_links].
  assert (forall o k, In t (find_links prefix o k s) ->
            exists u v, String a s = u +:+ v /\ link_target prefix v = Some t) as IH'.
  { intros o k (u & v & -> & Hv)%IH. by exists (String a u), v. }
  destruct skip as [|skip]; [|apply IH'].
  destruct (if opened then link_target prefix (String a s) else None) as [t'|] eqn:Hl;
    [|apply IH'].
  intros [<-|H]; [|by apply IH' in H].
  exists "", (String a s). split; [done|]. by destruct opened.
Qed.

Lemma contains_app sub u r : PyStr.contains sub (u +:+ sub +:+ r) = true.
Proof.
  induction u as [|a u IH].
  - change ("" +:+ sub +:+ r) with (sub +:+ r).
    destruct (sub +:+ r) eqn:E; simpl; rewrite <- E, startswith_app; done.
  - change (String a u +:+ sub +:+ r) with (String a (u +:+ sub +:+ r)).
    cbn [PyStr.contains]. rewrite IH. apply orb_true_r.
Qed.

(** Passing over the rest of a match. *)
Lemma find_links_skip prefix (opened : bool) u v :
  u <> "" ->
  find_links prefix opened (PyStr.len u) (u +:+ v) = find_links prefix false 0 v.
Proof.
  revert opened. induction u as [|a u IH]; intros opened Hu; [done|].
  change (String a u +:+ v) with (String a (u +:+ v)). cbn [find_links PyStr.len String.length].
  destruct u as [|b u]; [by destruct v|]. by apply IH.
Qed.

(** A position that does not start with a closing bracket starts no match. *)
Lemma link_target_other prefix (a : ascii) s :
  a <> "]"%char -> link_target prefix (String a s) = None.
Proof.
  intros Ha. unfold link_target. simpl.
  by destruct (Ascii.eqb_spec a "]").
Qed.

(** Inside a title, after its bracket. *)
Lemma find_links_title prefix t r :
  ~ PyStr.has_char "]" t -> ~ PyStr.has_char newline t ->
  find_links prefix true 0 (t +:+ r) = find_links prefix true 0 r.
Proof.
  induction t as [|a t IH]; [done|]. simpl PyStr.has_char. intros H1 H2.
  change (String a t +:+ r) with (String a (t +:+ r)). cbn [find_links].
  rewrite link_target_other by tauto.
  destruct (Ascii.eqb_spec a "[") as [|_]; [apply IH; tauto|].
  destruct (Ascii.eqb_spec a newline) as [|_]; [tauto | apply IH; tauto].
Qed.

Lemma find_links_step prefix (opened : bool) (a : ascii) s :
  a <> "]"%char ->
  find_links prefix opened 0 (String a s)
  = find_links prefix (if Ascii.eqb a "[" then true
                       else if Ascii.eqb a newline then false else opened) 0 s.
Proof.
  intros Ha. cbn [find_links]. rewrite link_target_other by done. by destruct opened.
Qed.

(** One line of a link list gives its path. *)
Lemma find_links_line prefix (opened : bool) (link : string * string) rest :
  plain_link link = true ->
  find_links prefix opened 0 (link_line prefix link +:+ rest)
  = snd link :: find_links prefix false 0 rest.
Proof.
  destruct link as [title path]. unfold plain_link, link_line. cbn [fst snd].
  rewrite !andb_true_iff, !negb_true_iff, !contains_char_false.
  intros ((((Ht1 & Ht2) & Hp) & He) & Hl%Nat.ltb_lt).
  replace (("- [" +:+ title +:+ "](" +:+ prefix +:+ path +:+ ")" +:+ String newline "")
           +:+ rest)
    with (String "-" (String " " (String "["
            (title +:+ String "]" (("(" +:+ prefix +:+ path +:+ ")")
                                   +:+ String newline rest)))))
    by (simpl; rewrite !app_assoc_str; simpl; by rewrite !app_assoc_str).
  rewrite !find_links_step by discriminate.
  change (if Ascii.eqb "[" "[" then true else _) with true.
  rewrite find_links_title by done.
  cbn [find_links].
  replace (link_target prefix
             (String "]" (("(" +:+ prefix +:+ path +:+ ")") +:+ String newline rest)))
    with (Some path).
  2:{ symmetry.
      replace (String "]" (("(" +:+ prefix +:+ path +:+ ")") +:+ String newline rest))
        with (("](" +:+ prefix) +:+ path +:+ String ")" (String newline rest))
        by (simpl; by rewrite !app_assoc_str).
      by apply link_target_app. }
  f_equal.
  replace (2 + PyStr.len prefix + PyStr.len path)
    with (PyStr.len ("(" +:+ prefix +:+ path +:+ ")"))
    by (rewrite !len_app; simpl; lia).
  rewrite find_links_skip by discriminate.
  by rewrite find_links_step by discriminate.
Qed.

Lemma find_links_link_list prefix (links : list (string * string)) :
  Forall (fun link => plain_link link = true) links ->
  find_links prefix false 0 (link_list prefix links) = List.map snd links.
Proof.
  induction 1 as [|link links Hl _ IH]; [done|].
  cbn [link_list List.map]. by rewrite find_links_line, IH.
Qed.

Lemma page_in_spec (page : string) (pages : list string) :
  page_in page pages = true <-> In page pages.
Proof.
  unfold page_in. rewrite existsb_exists. split.
  - by intros (x & Hx & ->%String.eqb_eq).
  - intros H. exists page. by rewrite String.eqb_refl.
Qed.

Lemma categorize_sound (targets : list string) (url page cat : string) :
  In (url, page, cat) (categorize targets) ->
  url = (CLAUDE_CODE_LINKS +:+ page) +:+ ".md"
  /\ In (page, cat) code_pages
  /\ (cat = "bwc" /\ In page BUILD_WITH_CLAUDE_CODE_PAGES
      \/ cat = "ref" /\ In page REFERENCE_PAGES)
  /\ exists target, In target targets /\ page = PyStr.drop_last 3 target.
Proof.
  induction targets as [|target rest IH]; [done|]. cbn [categorize].
  assert (In (url, page, cat) (categorize rest) ->
          url = (CLAUDE_CODE_LINKS +:+ page) +:+ ".md"
          /\ In (page, cat) code_pages
          /\ (cat = "bwc" /\ In page BUILD_WITH_CLAUDE_CODE_PAGES
              \/ cat = "ref" /\ In page REFERENCE_PAGES)
          /\ exists t, In t (target :: rest) /\ page = PyStr.drop_last 3 t) as IH'.
  { intros (H1 & H2 & H3 & t & Ht & H4)%IH. repeat split; try done.
    exists t. split; [by right | done]. }
  destruct (page_in _ BUILD_WITH_CLAUDE_CODE_PAGES) eqn:Hb.
  - intros [[= <- <- <-]|H]; [|by apply IH'].
    apply page_in_spec in Hb. repeat split.
    + unfold code_pages. apply in_or_app. left.
      by apply (in_map (fun page => (page, "bwc"))).
    + by left.
    + exists target. split; [by left | done].
  - destruct (page_in _ REFERENCE_PAGES) eqn:Hr; [|apply IH'].
    intros [[= <- <- <-]|H]; [|by apply IH'].
    apply page_in_spec in Hr. repeat split.
    + unfold code_pages. apply in_or_app. right.
      by apply (in_map (fun page => (page, "ref"))).
    + by right.
    + exists target. split; [by left | done].
Qed.

(** The filenames of the pages of the two sets are pairwise distinct. *)
Lemma code_pages_distinct (x y : string * string) :
  In x code_pages -> In y code_pages ->
  url_to_safe_filename (fst x) "code" (Some (snd x))
  = url_to_safe_filename (fst y) "code" (Some (snd y)) ->
  x = y.
Proof.
  assert (forallb (fun x =>
            forallb (fun y =>
              implb (String.eqb (url_to_safe_filename (fst x) "code" (Some (snd x)))
                                (url_to_safe_filename (fst y) "code" (Some (snd y))))
                    (String.eqb (fst x) (fst y) && String.eqb (snd x) (snd y)))
              code_pages) code_pages = true) as H by (vm_compute; reflexivity).
  intros Hx Hy Hf. rewrite forallb_forall in H. specialize (H x Hx).
  rewrite forallb_forall in H. specialize (H y Hy).
  apply String.eqb_eq in Hf. rewrite Hf in H. simpl in H.
  apply andb_true_iff in H as [H1%String.eqb_eq H2%String.eqb_eq].
  destruct x, y. simpl in *. congruence.
Qed.

End discovery.

(** X22: every identity [discover_claude_code_docs] returns belongs to
    one of the two page sets and carries that set's category, its URL is
    the fixed prefix, the page name and [.md], and the link to that URL
    stands in the link list; pages of neither set are not returned. *)
Theorem discovered_code_docs_are_categorized
    (llms : get_result) (docs : list (string * string * string))
    (url page cat : string) :
  discover_claude_code_docs llms = Some docs ->
  In (url, page, cat) docs ->
  url = (CLAUDE_CODE_LINKS +:+ page) +:+ ".md"
  /\ (cat = "bwc" /\ In page BUILD_WITH_CLAUDE_CODE_PAGES
      \/ cat = "ref" /\ In page REFERENCE_PAGES)
  /\ exists r, llms = GetReturns r /\ raises_for_status r = false
               /\ PyStr.contains ("](" +:+ url +:+ ")") (text r) = true.
Proof.
  unfold discover_claude_code_docs. destruct llms as [|r]; [done|].
  destruct (raises_for_status r) eqn:Hr; [done|]. intros [= <-] Hin.
  apply categorize_sound in Hin as (-> & _ & Hcat & target & Ht & ->).
  split; [done|]. split; [done|]. exists r. repeat split; try done.
  apply find_links_sound in Ht as (u & v & Htext & Hv).
  apply link_target_spec in Hv as ([rest ->] & _ & He & _).
  rewrite Htext. apply endswith_drop_last in He. change (PyStr.len ".md") with 3 in He.
  replace ((CLAUDE_CODE_LINKS +:+ PyStr.drop_last 3 target) +:+ ".md")
    with (CLAUDE_CODE_LINKS +:+ target)
    by (rewrite He at 1; by rewrite ?app_assoc_str).
  replace (u +:+ "](" +:+ CLAUDE_CODE_LINKS +:+ target +:+ String ")" rest)
    with (u +:+ ("](" +:+ (CLAUDE_CODE_LINKS +:+ target) +:+ ")") +:+ rest)
    by (by rewrite !app_assoc_str).
  apply contains_app.
Qed.

Lemma discovered_code_docs_are_categorized_witness :
  "https://code.claude.com/docs/en/hooks.md" = (CLAUDE_CODE_LINKS +:+ "hooks") +:+ ".md"
  /\ ("ref" = "bwc" /\ In "hooks" BUILD_WITH_CLAUDE_CODE_PAGES
      \/ "ref" = "ref" /\ In "hooks" REFERENCE_PAGES).
Proof.
  destruct (discovered_code_docs_are_categorized
              (ok_response (link_list CLAUDE_CODE_LINKS
                              [("Hooks", "hooks.md"); ("Other", "other.md")]))
              [("https://code.claude.com/docs/en/hooks.md", "hooks", "ref")]
              "https://code.claude.com/docs/en/hooks.md" "hooks" "ref")
    as (H1 & H2 & _); [vm_compute; reflexivity | by left | done].
Defined.

(** X23: two identities returned by [discover_claude_code_docs] that get
    the same filename are the same identity: among the Claude Code pages
    filenames collide only when a link is listed twice. *)
Theorem discovered_code_docs_do_not_collide
    (llms : get_result) (docs : list (string * string * string))
    (doc doc' : string * string * string) :
  discover_claude_code_docs llms = Some docs ->
  In doc docs -> In doc' docs ->
  discovered_code_filename doc = discovered_code_filename doc' ->
  doc = doc'.
Proof.
  unfold discover_claude_code_docs. destruct llms as [|r]; [done|].
  destruct (raises_for_status r); [done|]. intros [= <-].
  destruct doc as [[url page] cat], doc' as [[url' page'] cat'].
  intros (-> & H1 & _)%categorize_sound (-> & H2 & _)%categorize_sound Hf.
  pose proof (code_pages_distinct (page, cat) (page', cat') H1 H2 Hf) as [= -> ->].
  done.
Qed.

Lemma discovered_code_docs_do_not_collide_witness :
  ("https://code.claude.com/docs/en/hooks.md", "hooks", "ref")
  = ("https://code.claude.com/docs/en/hooks.md", "hooks", "ref").
Proof.
  apply (discovered_code_docs_do_not_collide
           (ok_response (link_list CLAUDE_CODE_LINKS
                           [("Hooks", "hooks.md"); ("Hooks again", "hooks.md")]))
           [("https://code.claude.com/docs/en/hooks.md", "hooks", "ref");
            ("https://code.claude.com/docs/en/hooks.md", "hooks", "ref")]);
    [vm_compute; reflexivity | by left | by right; left | reflexivity].
Defined.

(** X24: every identity [discover_platform_docs] returns has a path that
    ends in [.md] after at least one character and contains no closing
    parenthesis, its URL is the fixed prefix followed by the path, and the
    link to that URL stands in the link list. *)
Theorem discovered_platform_docs_are_markdown_links
    (llms : get_result) (docs : list (string * string)) (url path : string) :
  discover_platform_docs llms = Some docs ->
  In (url, path) docs ->
  url = PLATFORM_LINKS +:+ path
  /\ PyStr.endswith path ".md" = true /\ 3 < PyStr.len path
  /\ PyStr.contains ")" path = false
  /\ exists r, llms = GetReturns r /\ raises_for_status r = false
               /\ PyStr.contains ("](" +:+ url +:+ ")") (text r) = true.
Proof.
  unfold discover_platform_docs. destruct llms as [|r]; [done|].
  destruct (raises_for_status r) eqn:Hr; [done|]. intros [= <-] Hin.
  apply in_map_iff in Hin as (target & [= <- <-] & Ht).
  apply find_links_sound in Ht as (u & v & Htext & Hv).
  apply link_target_spec in Hv as ([rest ->] & Hn & He & Hl).
  repeat split; try done; [by apply contains_char_false|].
  exists r. repeat split; try done. rewrite Htext.
  replace (u +:+ "](" +:+ PLATFORM_LINKS +:+ target +:+ String ")" rest)
    with (u +:+ ("](" +:+ (PLATFORM_LINKS +:+ target) +:+ ")") +:+ rest)
    by (by rewrite !app_assoc_str).
  apply contains_app.
Qed.

Lemma discovered_platform_docs_are_markdown_links_witness :
  "https://platform.claude.com/docs/en/a__b.md" = PLATFORM_LINKS +:+ "a__b.md"
  /\ PyStr.endswith "a__b.md" ".md" = true.
Proof.
  destruct (discovered_platform_docs_are_markdown_links
              (ok_response (link_list PLATFORM_LINKS [("A", "a/b.md"); ("B", "a__b.md")]))
              [("https://platform.claude.com/docs/en/a/b.md", "a/b.md");
               ("https://platform.claude.com/docs/en/a__b.md", "a__b.md")]
              "https://platform.claude.com/docs/en/a__b.md" "a__b.md")
    as (H1 & H2 & _); [vm_compute; reflexivity | by right; left | done].
Defined.

(** X25: discovery reads a link list back. From a list with one plain
    markdown link per line, [discover_platform_docs] returns every link,
    in the order of the lines, and [discover_claude_code_docs] returns the
    links of the two page sets in that order; nothing is merged, so a link
    listed twice is returned twice. *)
Theorem discovery_reads_link_list_back
    (links : list (string * string)) (r r' : response) :
  Forall (fun link => plain_link link = true) links ->
  raises_for_status r = false -> text r = link_list PLATFORM_LINKS links ->
  raises_for_status r' = false -> text r' = link_list CLAUDE_CODE_LINKS links ->
  discover_platform_docs (GetReturns r)
  = Some (List.map (fun link => (PLATFORM_LINKS +:+ snd link, snd link)) links)
  /\ discover_claude_code_docs (GetReturns r')
     = Some (categorize (List.map snd links)).
Proof.
  intros Hl Hr Ht Hr' Ht'. unfold discover_platform_docs, discover_claude_code_docs.
  rewrite Hr, Ht, Hr', Ht', !find_links_link_list by done.
  by rewrite List.map_map.
Qed.

Lemma discovery_reads_link_list_back_witness :
  discover_platform_docs
    (ok_response (link_list PLATFORM_LINKS [("A", "a/b.md"); ("A", "a/b.md")]))
  = Some [("https://platform.claude.com/docs/en/a/b.md", "a/b.md");
          ("https://platform.claude.com/docs/en/a/b.md", "a/b.md")].
Proof.
  apply (discovery_reads_link_list_back
           [("A", "a/b.md"); ("A", "a/b.md")]
           {| status_code := 200; retry_after_header := RetryAfterAbsent;
              text := link_list PLATFORM_LINKS [("A", "a/b.md"); ("A", "a/b.md")] |}
           {| status_code := 200; retry_after_header := RetryAfterAbsent;
              text := link_list CLAUDE_CODE_LINKS [("A", "a/b.md"); ("A", "a/b.md")] |});
    try reflexivity.
  repeat constructor.
Defined.
